(** * defaultdata: project-structure checker and datapackage builder

    A shallow embedding of [src/defaultdata.py] and the properties its
    specification states about it.

    Python [str] and [bytes] values are both modelled by [string] (a list of
    8-bit characters): a file name is the byte string the directory holds and
    a file's content is its bytes.  Every character the program inspects (the
    pattern literals, the class [A-Za-z0-9_], tab, newline, the dot) is ASCII
    and no byte of a multi-byte UTF-8 sequence is, so matching bytes and
    matching code points agree. *)

From Stdlib Require Import String Ascii List Arith ZArith Lia Bool.
From Stdlib Require Import DecimalString.
Import ListNotations.
Open Scope string_scope.
Set Warnings "-register-all,-abstract-large-number".

(** ** The fragment of Python's [re] the program uses *)

Module Re.

(** One-character matchers. *)
Inductive cset : Type :=
| Lit (c : ascii)      (* a literal character, also an escaped one: \. *)
| Dot                  (* .  any character but a newline *)
| Word.                (* [A-Za-z0-9_] *)

(** A compiled pattern is a sequence of opcodes, groups being delimited by
    marks as in the engine's compiled form. *)
Inductive op : Type :=
| At_beginning         (* ^ *)
| At_end               (* $ *)
| Mark                 (* an opening or closing group parenthesis *)
| One (cs : cset)
| Plus (cs : cset).    (* greedy one-or-more *)

Definition newline : ascii := "010"%char.

Definition between (lo hi : nat) (c : ascii) : bool :=
  ((lo <=? nat_of_ascii c) && (nat_of_ascii c <=? hi))%nat.

(** [A-Za-z0-9_] *)
Definition is_word (c : ascii) : bool :=
  between 65 90 c || between 97 122 c || between 48 57 c
  || Ascii.eqb c "_"%char.

Definition mem (cs : cset) (c : ascii) : bool :=
  match cs with
  | Lit l => Ascii.eqb c l
  | Dot => negb (Ascii.eqb c newline)
  | Word => is_word c
  end.

(** [$] without MULTILINE: at the end of the string, or just before a
    newline that ends the string. *)
Definition at_end (s : string) : bool :=
  match s with
  | EmptyString => true
  | String c EmptyString => Ascii.eqb c newline
  | _ => false
  end.

(** Greedy repetition with backtracking: take one character of the class,
    prefer taking more, and fall back on the continuation. *)
Definition repeat {A : Type} (p : ascii -> bool)
    (k : nat -> string -> option A) : nat -> string -> option A :=
  fix go (pos : nat) (s : string) : option A :=
    match s with
    | EmptyString => None
    | String c s' =>
        if p c then
          match go (S pos) s' with
          | Some r => Some r
          | None => k (S pos) s'
          end
        else None
    end.

(** [exec full prog marks pos s] runs [prog] on the rest [s] of the subject,
    which starts at offset [pos]; it returns the offsets of the marks passed.
    [full] is [re.fullmatch]: the match has to use up the subject. *)
Fixpoint exec (full : bool) (prog : list op) (marks : list nat)
    (pos : nat) (s : string) : option (list nat) :=
  match prog with
  | [] =>
      if full then
        match s with EmptyString => Some marks | _ => None end
      else Some marks
  | At_beginning :: prog' =>
      if (pos =? 0)%nat then exec full prog' marks pos s else None
  | At_end :: prog' =>
      if at_end s then exec full prog' marks pos s else None
  | Mark :: prog' => exec full prog' (marks ++ [pos]) pos s
  | One cs :: prog' =>
      match s with
      | String c s' =>
          if mem cs c then exec full prog' marks (S pos) s' else None
      | EmptyString => None
      end
  | Plus cs :: prog' => repeat (mem cs) (exec full prog' marks) pos s
  end.

(** [pattern.match(subject)] *)
Definition match_ (prog : list op) (subject : string) : option (list nat) :=
  exec false prog [] 0 subject.

(** [re.fullmatch(pattern, subject)] *)
Definition fullmatch (prog : list op) (subject : string) : option (list nat) :=
  exec true prog [] 0 subject.

(** [m.group(1)]: the text between the first two marks. *)
Definition group1 (subject : string) (marks : list nat) : string :=
  match marks with
  | b :: e :: _ => substring b (e - b) subject
  | _ => ""
  end.

(** A run of literal characters. *)
Fixpoint lits (s : string) : list op :=
  match s with
  | EmptyString => []
  | String c s' => One (Lit c) :: lits s'
  end.

End Re.

(** ** File roles and the four naming patterns (lines 40-43) *)

Inductive ftype : Type := source | raw | tidy | sidecar.

(** [^(?P<inv>[A-Za-z0-9_]+)-source\..+$] *)
Definition source_pattern : list Re.op :=
  [Re.At_beginning; Re.Mark; Re.Plus Re.Word; Re.Mark]
    ++ Re.lits "-source." ++ [Re.Plus Re.Dot; Re.At_end].

(** [^(?P<inv>[A-Za-z0-9_]+)-raw\..+$] *)
Definition raw_pattern : list Re.op :=
  [Re.At_beginning; Re.Mark; Re.Plus Re.Word; Re.Mark]
    ++ Re.lits "-raw." ++ [Re.Plus Re.Dot; Re.At_end].

(** [^(?P<inv>[A-Za-z0-9_]+)\.tsv$] *)
Definition tidy_pattern : list Re.op :=
  [Re.At_beginning; Re.Mark; Re.Plus Re.Word; Re.Mark]
    ++ Re.lits ".tsv" ++ [Re.At_end].

(** [^(?P<inv>[A-Za-z0-9_]+)\.yml$] *)
Definition sidecar_pattern : list Re.op :=
  [Re.At_beginning; Re.Mark; Re.Plus Re.Word; Re.Mark]
    ++ Re.lits ".yml" ++ [Re.At_end].

(** The list the classification loop walks (lines 57-60). *)
Definition patterns : list (ftype * list Re.op) :=
  [(source, source_pattern); (raw, raw_pattern);
   (tidy, tidy_pattern); (sidecar, sidecar_pattern)].

(** The inner loop of lines 57-67: the first pattern that matches gives the
    role and the captured investigation name. *)
Fixpoint first_match (file : string) (ps : list (ftype * list Re.op))
    : option (ftype * string) :=
  match ps with
  | [] => None
  | (ft, pat) :: ps' =>
      match Re.match_ pat file with
      | Some m => Some (ft, Re.group1 file m)
      | None => first_match file ps'
      end
  end.

(** What the loop body of lines 47-69 does with one file name. *)
Inductive classified : Type :=
| Ignored
| Matched (ft : ftype) (inv : string)
| Unmatched.

Definition always_ignored (file : string) : bool :=
  String.eqb file ".gitignore" || String.eqb file ".DS_Store".

Definition classify (file : string) : classified :=
  if always_ignored file then Ignored
  else match first_match file patterns with
       | Some (ft, inv) => Matched ft inv
       | None => Unmatched
       end.

(** ** Python values and dictionaries *)

(** The values [yaml.safe_load] builds and [json.dump] writes.  A mapping
    is kept as the list of its items in insertion order, with strings for
    keys; a float is kept as its text. *)
Inductive pyval : Type :=
| PNone
| PBool (b : bool)
| PInt (z : Z)
| PFloat (repr : string)
| PStr (s : string)
| PList (l : list pyval)
| PDict (items : list (string * pyval)).

Module Dict.

(** A [dict] as the list of its items in insertion order. *)
Definition t (V : Type) : Type := list (string * V).

Fixpoint get {V : Type} (k : string) (d : t V) : option V :=
  match d with
  | [] => None
  | (k', v) :: d' => if String.eqb k' k then Some v else get k d'
  end.

(** [d[k] = v]: an existing key keeps its place, a new one goes last. *)
Fixpoint set {V : Type} (k : string) (v : V) (d : t V) : t V :=
  match d with
  | [] => [(k, v)]
  | (k', v') :: d' =>
      if String.eqb k' k then (k', v) :: d' else (k', v') :: set k v d'
  end.

(** [d.update(other)] *)
Definition update {V : Type} (d other : t V) : t V :=
  fold_left (fun acc kv => set (fst kv) (snd kv) acc) other d.

Definition keys {V : Type} (d : t V) : list string := map fst d.

End Dict.

(** [str(n)] for a length. *)
Definition str_of_nat (n : nat) : string :=
  NilZero.string_of_uint (Nat.to_uint n).

(** ** Reading the first line of a text file

    [open(path, encoding='utf-8')] followed by [f.readline()]: the text layer
    reads the file in chunks of 8192 bytes, decodes each chunk it reads as a
    whole with an incremental strict UTF-8 decoder, translates line endings
    (universal newlines) and returns the text up to the first line end. *)

Module TextIO.

Definition _CHUNK_SIZE : nat := 8192.

Fixpoint take (n : nat) (s : string) : string :=
  match n, s with
  | S n', String c s' => String c (take n' s')
  | _, _ => EmptyString
  end.

Fixpoint drop (n : nat) (s : string) : string :=
  match n, s with
  | S n', String _ s' => drop n' s'
  | _, _ => s
  end.

(** The successive results of [read1(size)] on a regular file. *)
Fixpoint chunks_fuel (fuel size : nat) (s : string) : list string :=
  match fuel, s with
  | S fuel', String _ _ => take size s :: chunks_fuel fuel' size (drop size s)
  | _, _ => []
  end.

Definition chunks (size : nat) (s : string) : list string :=
  chunks_fuel (String.length s) size s.

(** The strict UTF-8 decoder, as an automaton over bytes: inside a
    multi-byte sequence the next byte has to lie in [lo..hi], and [more]
    continuation bytes follow it. *)
Inductive state : Type :=
| Start
| Cont (lo hi more : nat).

Definition step (st : state) (b : ascii) : option state :=
  match st with
  | Start =>
      if Re.between 0 127 b then Some Start
      else if Re.between 194 223 b then Some (Cont 128 191 0)
      else if Re.between 224 224 b then Some (Cont 160 191 1)
      else if Re.between 225 236 b then Some (Cont 128 191 1)
      else if Re.between 237 237 b then Some (Cont 128 159 1)
      else if Re.between 238 239 b then Some (Cont 128 191 1)
      else if Re.between 240 240 b then Some (Cont 144 191 2)
      else if Re.between 241 243 b then Some (Cont 128 191 2)
      else if Re.between 244 244 b then Some (Cont 128 143 2)
      else None
  | Cont lo hi more =>
      if Re.between lo hi b then
        Some (match more with 0 => Start | S m => Cont 128 191 m end)
      else None
  end.

(** [decoder.decode(chunk, final=False)]: the bytes of the characters
    completed in this chunk, the new state and the bytes of a sequence left
    unfinished; [None] is UnicodeDecodeError. *)
Fixpoint decode (st : state) (pending : string) (chunk : string)
    : option (string * state * string) :=
  match chunk with
  | EmptyString => Some (EmptyString, st, pending)
  | String b chunk' =>
      match step st b with
      | None => None
      | Some Start =>
          match decode Start EmptyString chunk' with
          | Some (text, st', pending') =>
              Some (pending ++ String b text, st', pending')
          | None => None
          end
      | Some st1 => decode st1 (pending ++ String b EmptyString) chunk'
      end
  end.

Definition cr : ascii := "013"%char.
Definition lf : ascii := "010"%char.
Definition tab : ascii := "009"%char.

(** Whether the text ends with a carriage return, and the text without its
    last character. *)
Fixpoint ends_with_cr (s : string) : bool :=
  match s with
  | EmptyString => false
  | String c EmptyString => Ascii.eqb c cr
  | String _ s' => ends_with_cr s'
  end.

Fixpoint drop_last (s : string) : string :=
  match s with
  | EmptyString => EmptyString
  | String _ EmptyString => EmptyString
  | String c s' => String c (drop_last s')
  end.

(** Universal newlines: CR LF and a lone CR both become LF. *)
Fixpoint translate (s : string) : string :=
  match s with
  | EmptyString => EmptyString
  | String c s' =>
      if Ascii.eqb c cr then
        match s' with
        | String c' s'' =>
            if Ascii.eqb c' lf then String lf (translate s'')
            else String lf (translate s')
        | EmptyString => String lf EmptyString
        end
      else String c (translate s')
  end.

(** [line.find('\n')]: the text up to and including the first LF. *)
Fixpoint upto_lf (s : string) : option string :=
  match s with
  | EmptyString => None
  | String c s' =>
      if Ascii.eqb c lf then Some (String c EmptyString)
      else match upto_lf s' with
           | Some l => Some (String c l)
           | None => None
           end
  end.

Inductive read_result : Type :=
| Line (text : string)
| UnicodeDecodeError.

Definition is_empty (s : string) : bool :=
  match s with EmptyString => true | _ => false end.

(** The loop of [readline]: decode chunk after chunk until the text read so
    far holds a line end or the file ends. *)
Fixpoint readline_loop (cs : list string) (st : state) (pending : string)
    (pendingcr : bool) (line : string) : read_result :=
  match cs with
  | [] =>
      (* end of file: decode(b'', final=True) *)
      match st with
      | Start => Line (line ++ (if pendingcr then String lf EmptyString
                                else EmptyString))
      | Cont _ _ _ => UnicodeDecodeError
      end
  | chunk :: cs' =>
      match decode st pending chunk with
      | None => UnicodeDecodeError
      | Some (text, st', pending') =>
          let out := if pendingcr && negb (is_empty text)
                     then String cr text else text in
          let held := pendingcr && is_empty text in
          let out' := if ends_with_cr out then drop_last out else out in
          let pendingcr' := ends_with_cr out || held in
          match upto_lf (translate out') with
          | Some l => Line (line ++ l)
          | None =>
              readline_loop cs' st' pending' pendingcr' (line ++ translate out')
          end
      end
  end.

Definition readline (content : string) : read_result :=
  readline_loop (chunks _CHUNK_SIZE content) Start EmptyString false
    EmptyString.

(** ["\t" in text] *)
Fixpoint has_tab (s : string) : bool :=
  match s with
  | EmptyString => false
  | String c s' => Ascii.eqb c tab || has_tab s'
  end.

End TextIO.

(** ** The project on disk *)

(** A directory entry as the program can tell it apart: a directory, a
    regular file that opens with the given bytes, a regular file whose
    [open] raises (the string is [str(e)]), and an entry that is neither a
    regular file nor a directory (a dangling link, say), which does not open
    either. *)
Inductive node : Type :=
| Dir
| File (content : string)
| Unreadable (err : string)
| Other (err : string).

Definition isdir (n : node) : bool :=
  match n with Dir => true | _ => false end.

Definition isfile (n : node) : bool :=
  match n with File _ | Unreadable _ => true | _ => false end.

(** The project folder: its path, whether README.md is a file of it, and
    the entries of data/ in the order [os.listdir] returns them ([None]
    when there is no such folder). *)
Record project : Type := {
  project_path : string;
  readme : bool;
  data : option (list (string * node))
}.

(** [open(os.path.join(data_path, file))]: the content, or [str(e)]. *)
Definition open_ (listing : list (string * node)) (file : string)
    : string + string :=
  match Dict.get file listing with
  | Some (File content) => inr content
  | Some (Unreadable err) => inl err
  | Some (Other err) => inl err
  | Some Dir => inl ("[Errno 21] Is a directory: '" ++ file ++ "'")
  | None => inl ("[Errno 2] No such file or directory: '" ++ file ++ "'")
  end.

(** ** check_project_structure (lines 15-124) *)

(** The value of one investigation in the grouping dictionary. *)
Record files_dict : Type := {
  source_files : list string;
  raw_files : list string;
  tidy_files : list string;
  sidecar_files : list string
}.

Definition no_files : files_dict :=
  {| source_files := []; raw_files := []; tidy_files := [];
     sidecar_files := [] |}.

Definition files_of (ft : ftype) (fd : files_dict) : list string :=
  match ft with
  | source => source_files fd
  | raw => raw_files fd
  | tidy => tidy_files fd
  | sidecar => sidecar_files fd
  end.

(** [files_dict[ftype].append(file)] *)
Definition append_file (ft : ftype) (file : string) (fd : files_dict)
    : files_dict :=
  match ft with
  | source =>
      {| source_files := (source_files fd ++ [file])%list;
         raw_files := raw_files fd; tidy_files := tidy_files fd;
         sidecar_files := sidecar_files fd |}
  | raw =>
      {| source_files := source_files fd;
         raw_files := (raw_files fd ++ [file])%list; tidy_files := tidy_files fd;
         sidecar_files := sidecar_files fd |}
  | tidy =>
      {| source_files := source_files fd; raw_files := raw_files fd;
         tidy_files := (tidy_files fd ++ [file])%list;
         sidecar_files := sidecar_files fd |}
  | sidecar =>
      {| source_files := source_files fd; raw_files := raw_files fd;
         tidy_files := tidy_files fd;
         sidecar_files := (sidecar_files fd ++ [file])%list |}
  end.

(** Lines 65-66: [setdefault] and [append]. *)
Definition add_file (inv : string) (ft : ftype) (file : string)
    (investigations : Dict.t files_dict) : Dict.t files_dict :=
  let fd := match Dict.get inv investigations with
            | Some fd => fd
            | None => no_files
            end in
  Dict.set inv (append_file ft file fd) investigations.

(** The messages, as the f-strings build them. *)
Definition readme_msg : string :=
  "Project root must contain a README.md file.".

Definition no_data_msg : string := "Project must contain a data/ folder.".

Definition subfolder_msg (item : string) : string :=
  "data/ folder must only contain set-related files, but found subfolder: "
    ++ item.

Definition unmatched_msg (file : string) : string :=
  "File '" ++ file ++ "' does not match any known naming pattern.".

Definition not_found_msg (target_inv : string) : string :=
  "Investigation '" ++ target_inv ++ "' not found in data folder.".

Definition invalid_name_msg (inv : string) : string :=
  "Investigation name '" ++ inv
    ++ "' contains invalid characters. Only alphanumeric and '_' are allowed.".

Definition raw_count_msg (inv : string) (n : nat) : string :=
  "Investigation '" ++ inv ++ "' must have exactly one raw file; found "
    ++ str_of_nat n ++ ".".

Definition tidy_count_msg (inv : string) (n : nat) : string :=
  "Investigation '" ++ inv ++ "' must have exactly one tidy data file; found "
    ++ str_of_nat n ++ ".".

Definition sidecar_count_msg (inv : string) (n : nat) : string :=
  "Investigation '" ++ inv ++ "' must have exactly one sidecar file; found "
    ++ str_of_nat n ++ ".".

Definition source_count_msg (inv : string) (n : nat) : string :=
  "Investigation '" ++ inv ++ "' must have at most one source file; found "
    ++ str_of_nat n ++ ".".

Definition not_tab_msg (tidy_file : string) : string :=
  "Tidy data file '" ++ tidy_file ++ "' does not appear to be tab-separated.".

Definition not_utf8_msg (tidy_file : string) : string :=
  "Tidy data file '" ++ tidy_file ++ "' is not encoded in UTF-8.".

Definition read_error_msg (tidy_file e : string) : string :=
  "Error reading tidy data file '" ++ tidy_file ++ "': " ++ e.

Definition invalid_yaml_msg (sidecar_file e : string) : string :=
  "Sidecar file '" ++ sidecar_file ++ "' is not valid YAML: " ++ e.

Definition no_yaml_msg : string :=
  "PyYAML is not installed. Cannot check sidecar YAML files.".

(** [if target_inv:] holds for a string that is not empty. *)
Definition requested (target_inv : option string) : option string :=
  match target_inv with
  | Some EmptyString => None
  | Some t => Some t
  | None => None
  end.

(** Lines 34-37, one entry. *)
Definition subfolder_step (errors : list string) (item : string * node)
    : list string :=
  if isdir (snd item) then (errors ++ [subfolder_msg (fst item)])%list
  else errors.

(** Lines 47-69, one entry. *)
Definition scan_step (st : Dict.t files_dict * list string)
    (item : string * node) : Dict.t files_dict * list string :=
  let (investigations, errors) := st in
  let (file, n) := item in
  if always_ignored file then st
  else if negb (isfile n) then st
  else match first_match file patterns with
       | Some (ft, inv_name) => (add_file inv_name ft file investigations, errors)
       | None => (investigations, (errors ++ [unmatched_msg file])%list)
       end.

(** Lines 71-77. *)
Definition filter_target (target_inv : option string)
    (st : Dict.t files_dict * list string)
    : Dict.t files_dict * list string :=
  let (investigations, errors) := st in
  match requested target_inv with
  | Some t =>
      match Dict.get t investigations with
      | None => ([], (errors ++ [not_found_msg t])%list)
      | Some fd => ([(t, fd)], errors)
      end
  | None => st
  end.

(** [[A-Za-z0-9_]+] *)
Definition name_pattern : list Re.op := [Re.Plus Re.Word].

(** Lines 81-95, one investigation: rule set 6. *)
Definition structure_errors (inv : string) (fd : files_dict) : list string :=
  ((match Re.fullmatch name_pattern inv with
    | Some _ => []
    | None => [invalid_name_msg inv]
    end)
   ++ (if (length (raw_files fd) =? 1)%nat then []
       else [raw_count_msg inv (length (raw_files fd))])
   ++ (if (length (tidy_files fd) =? 1)%nat then []
       else [tidy_count_msg inv (length (tidy_files fd))])
   ++ (if (length (sidecar_files fd) =? 1)%nat then []
       else [sidecar_count_msg inv (length (sidecar_files fd))])
   ++ (if (1 <? length (source_files fd))%nat
       then [source_count_msg inv (length (source_files fd))]
       else []))%list.

(** ** Paths, time stamps and the effects of package mode *)

Module Path.

(** [str.endswith] *)
Definition endswith (s suffix : string) : bool :=
  (String.length suffix <=? String.length s)%nat
  && String.eqb
       (TextIO.drop (String.length s - String.length suffix) s) suffix.

(** [str.rfind] of one character: the last index holding it. *)
Fixpoint rfind_from (c : ascii) (s : string) (i : nat) : option nat :=
  match s with
  | EmptyString => None
  | String a s' =>
      match rfind_from c s' (S i) with
      | Some j => Some j
      | None => if Ascii.eqb a c then Some i else None
      end
  end.

Definition rfind (c : ascii) (s : string) : option nat := rfind_from c s 0.

Fixpoint all_dots (s : string) : bool :=
  match s with
  | EmptyString => true
  | String c s' => Ascii.eqb c "."%char && all_dots s'
  end.

(** [os.path.splitext]: split at the last dot of the last component, unless
    only dots precede it there. *)
Definition splitext (p : string) : string * string :=
  match rfind "."%char p with
  | None => (p, EmptyString)
  | Some dotIndex =>
      let filenameIndex :=
        match rfind "/"%char p with
        | None => 0
        | Some sepIndex => S sepIndex
        end in
      if (filenameIndex <=? dotIndex)%nat then
        if all_dots (TextIO.take (dotIndex - filenameIndex)
                       (TextIO.drop filenameIndex p))
        then (p, EmptyString)
        else (TextIO.take dotIndex p, TextIO.drop dotIndex p)
      else (p, EmptyString)
  end.

Fixpoint last_char (s : string) : option ascii :=
  match s with
  | EmptyString => None
  | String c EmptyString => Some c
  | String _ s' => last_char s'
  end.

(** [os.path.join] of two parts. *)
Definition join (a b : string) : string :=
  match b with
  | String "/"%char _ => b
  | _ =>
      match last_char a with
      | None => b
      | Some "/"%char => a ++ b
      | Some _ => a ++ "/" ++ b
      end
  end.

(** [os.path.basename]: what follows the last slash. *)
Definition basename (p : string) : string :=
  match rfind "/"%char p with
  | None => p
  | Some i => TextIO.drop (S i) p
  end.

End Path.

(** A reading of the UTC clock. *)
Record datetime : Type := {
  year : nat; month : nat; day : nat;
  hour : nat; minute : nat; second : nat
}.

Definition digit (n : nat) : ascii := ascii_of_nat (48 + n).

(** A field printed on two digits (%m %d %H %M %S). *)
Definition two_digits (n : nat) : string :=
  String (digit (n / 10)) (String (digit (n mod 10)) EmptyString).

(** The year printed on four digits (%Y, documented as 0001 ... 9999;
    the C libraries agree on it from the year 1000 on). *)
Definition four_digits (n : nat) : string :=
  String (digit (n / 1000)) (String (digit ((n / 100) mod 10))
    (String (digit ((n / 10) mod 10)) (String (digit (n mod 10)) EmptyString))).

(** [strftime("%Y-%m-%dT%H:%M:%SZ")] *)
Definition strftime (t : datetime) : string :=
  four_digits (year t) ++ "-" ++ two_digits (month t) ++ "-"
    ++ two_digits (day t) ++ "T" ++ two_digits (hour t) ++ ":"
    ++ two_digits (minute t) ++ ":" ++ two_digits (second t) ++ "Z".

(** Everything package mode reads or writes: the project folder, the clock
    ([utc n] is what the [n]-th call of [utcnow] returns), the two output
    streams, whether writing datapackage.json raises, and the document
    written there ([json.dump]'s argument; the serialisation itself is not
    modelled). *)
Record world : Type := {
  cwd : project;
  utc : nat -> datetime;
  ticks : nat;
  stderr : list string;
  stdout : list string;
  write_error : option string;
  datapackage_json : option pyval
}.

(** A run either goes on with a value or ends in [sys.exit(msg)]. *)
Inductive result (A : Type) : Type :=
| Ok (a : A)
| Exit (msg : string).

Arguments Ok {A} a.
Arguments Exit {A} msg.

Definition M (A : Type) : Type := world -> result A * world.

Definition ret {A : Type} (a : A) : M A := fun w => (Ok a, w).

Definition bind {A B : Type} (m : M A) (f : A -> M B) : M B :=
  fun w =>
    match m w with
    | (Ok a, w') => f a w'
    | (Exit msg, w') => (Exit msg, w')
    end.

Notation "x <- m ;; k" := (bind m (fun x => k))
  (at level 61, m at next level, right associativity).
Notation "m ;;; k" := (bind m (fun _ => k))
  (at level 61, right associativity).

(** [sys.exit(msg)] *)
Definition exit {A : Type} (msg : string) : M A := fun w => (Exit msg, w).

(** [print(msg, file=sys.stderr)] *)
Definition warn (msg : string) : M unit :=
  fun w =>
    (Ok tt,
     {| cwd := cwd w; utc := utc w; ticks := ticks w;
        stderr := (stderr w ++ [msg])%list; stdout := stdout w;
        write_error := write_error w;
        datapackage_json := datapackage_json w |}).

(** [print(msg)] *)
Definition print (msg : string) : M unit :=
  fun w =>
    (Ok tt,
     {| cwd := cwd w; utc := utc w; ticks := ticks w;
        stderr := stderr w; stdout := (stdout w ++ [msg])%list;
        write_error := write_error w;
        datapackage_json := datapackage_json w |}).

(** [datetime.datetime.utcnow()] *)
Definition utcnow : M datetime :=
  fun w =>
    (Ok (utc w (ticks w)),
     {| cwd := cwd w; utc := utc w; ticks := S (ticks w);
        stderr := stderr w; stdout := stdout w;
        write_error := write_error w;
        datapackage_json := datapackage_json w |}).

(** [json.dump(doc, f, indent=2)] into datapackage.json: the exception's
    text when the write fails. *)
Definition dump (doc : pyval) : M (option string) :=
  fun w =>
    match write_error w with
    | Some e => (Ok (Some e), w)
    | None =>
        (Ok None,
         {| cwd := cwd w; utc := utc w; ticks := ticks w;
            stderr := stderr w; stdout := stdout w;
            write_error := write_error w;
            datapackage_json := Some doc |})
    end.

(** A [for] loop that appends one value per item. *)
Fixpoint for_each {A B : Type} (f : A -> M B) (l : list A) : M (list B) :=
  match l with
  | [] => ret []
  | a :: l' => b <- f a ;; bs <- for_each f l' ;; ret (b :: bs)
  end.

(** [hashlib.md5]: the state of a hash object, the fresh object, [update]
    and [hexdigest]. *)
Record hashlib_md5 : Type := {
  md5_state : Type;
  md5_new : md5_state;
  md5_update : md5_state -> string -> md5_state;
  md5_hexdigest : md5_state -> string
}.

Section Program.

(** The YAML library: [None] when the import failed, else [safe_load] from a
    file's bytes to the parsed value or to the text of the exception. *)
Variable yaml : option (string -> string + pyval).

(** Lines 99-110. *)
Definition tidy_errors (listing : list (string * node)) (fd : files_dict)
    : list string :=
  match tidy_files fd with
  | [] => []
  | tidy_file :: _ =>
      match open_ listing tidy_file with
      | inr content =>
          match TextIO.readline content with
          | TextIO.Line header_line =>
              if TextIO.has_tab header_line then []
              else [not_tab_msg tidy_file]
          | TextIO.UnicodeDecodeError => [not_utf8_msg tidy_file]
          end
      | inl e => [read_error_msg tidy_file e]
      end
  end.

(** Lines 112-122. *)
Definition sidecar_errors (listing : list (string * node)) (fd : files_dict)
    : list string :=
  match sidecar_files fd with
  | [] => []
  | sidecar_file :: _ =>
      match yaml with
      | Some safe_load =>
          match open_ listing sidecar_file with
          | inr content =>
              match safe_load content with
              | inr _ => []
              | inl e => [invalid_yaml_msg sidecar_file e]
              end
          | inl e => [invalid_yaml_msg sidecar_file e]
          end
      | None => [no_yaml_msg]
      end
  end.

Definition content_errors (listing : list (string * node)) (fd : files_dict)
    : list string :=
  (tidy_errors listing fd ++ sidecar_errors listing fd)%list.

Definition check_project_structure (p : project)
    (target_inv : option string) : list string :=
  let errors := [] in
  let errors := if readme p then errors else (errors ++ [readme_msg])%list in
  match data p with
  | None => (errors ++ [no_data_msg])%list
  | Some listing =>
      let errors := fold_left subfolder_step listing errors in
      let st := fold_left scan_step listing ([], errors) in
      let (investigations, errors) := filter_target target_inv st in
      let errors :=
        fold_left
          (fun errs kv => (errs ++ structure_errors (fst kv) (snd kv))%list)
          investigations errors in
      let errors :=
        fold_left
          (fun errs kv => (errs ++ content_errors listing (snd kv))%list)
          investigations errors in
      errors
  end.

(** ** load_yaml_fields (lines 126-148) *)

(** Lines 141-147, one item of the mapping. *)
Definition load_field (item : string * pyval) : M (list pyval) :=
  let (field_name, field_def) := item in
  match field_def with
  | PDict attrs =>
      ret [PDict (Dict.update [("name", PStr field_name)] attrs)]
  | _ =>
      warn ("Warning: Field '" ++ field_name
              ++ "' is not a mapping; skipping.") ;;;
      ret []
  end.

(** The result of the [try] block of lines 131-135: the parsed document or
    the text of the exception. *)
Definition try_load (listing : list (string * node)) (file : string)
    : string + pyval :=
  match open_ listing file with
  | inl e => inl e
  | inr content =>
      match yaml with
      | Some safe_load => safe_load content
      | None => inl "'NoneType' object has no attribute 'safe_load'"
      end
  end.

(** [yml_file] is the path shown in the messages, [file] the entry of
    data/ it names. *)
Definition load_yaml_fields (listing : list (string * node))
    (yml_file file : string) : M (list pyval) :=
  match try_load listing file with
  | inl e => exit ("Error loading YAML file " ++ yml_file ++ ": " ++ e)
  | inr (PDict items) =>
      fields <- for_each load_field items ;;
      ret (concat fields)
  | inr _ =>
      exit ("Error: Expected a YAML mapping at the root of " ++ yml_file)
  end.

(** ** compute_file_info (lines 150-164) *)

(** The hashing library. *)
Variable md5 : hashlib_md5.

Definition compute_file_info (listing : list (string * node))
    (tsv_path file : string) : M (nat * string) :=
  match open_ listing file with
  | inr content =>
      let bytes_size := String.length content in
      let md5_hash :=
        fold_left (md5_update md5) (TextIO.chunks 8192 content)
          (md5_new md5) in
      ret (bytes_size, md5_hexdigest md5 md5_hash)
  | inl e => exit ("Error computing md5 for " ++ tsv_path ++ ": " ++ e)
  end.

(** ** package_investigations (lines 166-263) *)

(** Lines 189-192, one entry: the dictionary holds the entry's name, from
    which [os.path.join(data_path, file)] is formed where it is shown. *)
Definition discover_step (investigations : Dict.t string)
    (item : string * node) : Dict.t string :=
  let file := fst item in
  if Path.endswith file ".yml"
  then Dict.set (fst (Path.splitext file)) file investigations
  else investigations.

Definition dialect : pyval :=
  PDict [("header", PBool true);
         ("headerRows", PList [PInt 1%Z]);
         ("headerJoin", PStr " ");
         ("commentChar", PStr "#");
         ("delimiter", PStr (String TextIO.tab EmptyString));
         ("lineTerminator",
          PStr (String TextIO.cr (String TextIO.lf EmptyString)));
         ("quoteChar", PStr (String (ascii_of_nat 34) EmptyString));
         ("doubleQuote", PBool true);
         ("skipInitialSpace", PBool false)].

Definition licenses : pyval :=
  PList [PDict [("name", PStr "CC0");
                ("title", PStr "Creative Commons CC0");
                ("path",
                 PStr "https://creativecommons.org/publicdomain/zero/1.0/")]].

(** Lines 216-247. *)
Definition resource (inv : string) (bytes_size : nat) (hash_hex : string)
    (fields : list pyval) (created : string) : pyval :=
  PDict [("profile", PStr "tabular-data-resource");
         ("name", PStr inv);
         ("path", PStr ("data/" ++ inv ++ ".tsv"));
         ("format", PStr "tsv");
         ("mediatype", PStr "text/tab-separated-values");
         ("encoding", PStr "utf-8");
         ("bytes", PInt (Z.of_nat bytes_size));
         ("hash", PStr hash_hex);
         ("schema", PDict [("fields", PList fields)]);
         ("dialect", dialect);
         ("licenses", licenses);
         ("created", PStr created)].

(** Lines 205-211: the size and the hash of the tidy file, or the
    placeholders. *)
Definition tidy_info (data_path : string) (listing : list (string * node))
    (inv : string) : M (nat * string) :=
  let tsv_path := Path.join data_path (inv ++ ".tsv") in
  let present :=
    match Dict.get (inv ++ ".tsv") listing with
    | Some n => isfile n
    | None => false
    end in
  if present then compute_file_info listing tsv_path (inv ++ ".tsv")
  else
    warn ("Warning: TSV file '" ++ tsv_path
            ++ "' not found. Using placeholder values.") ;;;
    ret (0, EmptyString).

(** Lines 204-248, one investigation. *)
Definition package_one (data_path : string) (listing : list (string * node))
    (created : string) (item : string * string) : M pyval :=
  let (inv, file) := item in
  let yml_file := Path.join data_path file in
  info <- tidy_info data_path listing inv ;;
  fields <- load_yaml_fields listing yml_file file ;;
  ret (resource inv (fst info) (snd info) fields created).

(** Lines 194-198. *)
Definition select_target (target_inv : option string)
    (investigations : Dict.t string) : M (Dict.t string) :=
  match requested target_inv with
  | Some t =>
      match Dict.get t investigations with
      | None =>
          exit ("Error: Investigation '" ++ t
                  ++ "' not found (no corresponding .yml file in data/).")
      | Some yml => ret [(t, yml)]
      end
  | None => ret investigations
  end.

Definition package_investigations (target_inv : option string) : M unit :=
  fun w =>
    let project_path := project_path (cwd w) in
    let data_path := Path.join project_path "data" in
    match data (cwd w) with
    | None =>
        exit "Error: data/ folder not found in the current project directory."
          w
    | Some listing =>
        (let investigations := fold_left discover_step listing [] in
         investigations <- select_target target_inv investigations ;;
         now <- utcnow ;;
         let created := strftime now in
         resources <-
           for_each (package_one data_path listing created) investigations ;;
         let package_name :=
           match Path.basename project_path with
           | EmptyString => "defaultdata-package"
           | name => name
           end in
         let datapackage :=
           PDict [("name", PStr package_name);
                  ("resources", PList resources)] in
         failure <- dump datapackage ;;
         match failure with
         | None =>
             print ("Created datapackage.json with "
                      ++ str_of_nat (length resources) ++ " resource(s).")
         | Some e => exit ("Error writing datapackage.json: " ++ e)
         end) w
    end.

End Program.

(** ** cmd_check and cmd_package (lines 265-282) *)

(** What [cmd_check] prints and the status it exits with. *)
Definition cmd_check (yaml : option (string -> string + pyval))
    (project_folder : project) (target_inv : option string)
    : list string * nat :=
  let errors := check_project_structure yaml project_folder target_inv in
  match errors with
  | _ :: _ =>
      ("Validation errors found:" :: map (fun err => " - " ++ err) errors, 1)
  | [] => (["All checks passed."], 0)
  end.

(** The status [cmd_package] exits with and the world it leaves:
    [sys.exit(0)] after a run that returned, and for a run that ended in
    [sys.exit(msg)] the message on the error stream and status 1. *)
Definition cmd_package (yaml : option (string -> string + pyval))
    (md5 : hashlib_md5) (target_inv : option string) (w : world)
    : nat * world :=
  match package_investigations yaml md5 target_inv w with
  | (Ok _, w') => (0, w')
  | (Exit msg, w') => (1, snd (warn msg w'))
  end.

(** * Vocabulary of the statements *)

Import TextIO.

(** The string is made of characters of [A-Za-z0-9_]. *)
Fixpoint all_word (s : string) : bool :=
  match s with
  | EmptyString => true
  | String c s' => Re.is_word c && all_word s'
  end.

Fixpoint no_newline (s : string) : bool :=
  match s with
  | EmptyString => true
  | String c s' => negb (Ascii.eqb c Re.newline) && no_newline s'
  end.

Definition nl : string := String Re.newline EmptyString.

(** An extension the patterns accept: a non-empty run of characters other
    than newline, possibly followed by one last newline. *)
Fixpoint ext_ok (e : string) : bool :=
  match e with
  | EmptyString => false
  | String c e' => negb (Ascii.eqb c Re.newline) && (Re.at_end e' || ext_ok e')
  end.

(** The names the specification gives each role, for an investigation [X]
    and an extension [E]. *)
Definition role_name (ft : ftype) (X E : string) : string :=
  match ft with
  | source => X ++ "-source." ++ E
  | raw => X ++ "-raw." ++ E
  | tidy => X ++ ".tsv"
  | sidecar => X ++ ".yml"
  end.

(** The names the patterns give each role. *)
Definition has_role (ft : ftype) (X file : string) : Prop :=
  match ft with
  | source | raw => exists E, ext_ok E = true /\ file = role_name ft X E
  | tidy | sidecar =>
      file = role_name ft X EmptyString
      \/ file = role_name ft X EmptyString ++ nl
  end.

Definition pattern_of (ft : ftype) : list Re.op :=
  match ft with
  | source => source_pattern
  | raw => raw_pattern
  | tidy => tidy_pattern
  | sidecar => sidecar_pattern
  end.

(** The longest prefix in a class, and what follows it. *)
Fixpoint span (p : ascii -> bool) (s : string) : string * string :=
  match s with
  | EmptyString => (EmptyString, EmptyString)
  | String c s' =>
      if p c then (String c (fst (span p s')), snd (span p s'))
      else (EmptyString, s)
  end.

(** [s] without its prefix [pre]. *)
Fixpoint strip_prefix (pre s : string) : option string :=
  match pre, s with
  | EmptyString, _ => Some s
  | String a pre', String b s' =>
      if Ascii.eqb a b then strip_prefix pre' s' else None
  | String _ _, EmptyString => None
  end.

(** The common head [^(?P<inv>[A-Za-z0-9_]+)] of the four patterns. *)
Definition head_ops : list Re.op :=
  [Re.At_beginning; Re.Mark; Re.Plus Re.Word; Re.Mark].

(** What a pattern [^(?P<inv>[A-Za-z0-9_]+)mid tail] captures, computed
    without backtracking: the span of word characters, then [mid], then a
    rest the tail accepts. *)
Definition shape (mid : string) (accept : string -> bool) (file : string)
    : option string :=
  match fst (span Re.is_word file) with
  | EmptyString => None
  | String _ _ =>
      match strip_prefix mid (snd (span Re.is_word file)) with
      | Some e => if accept e then Some (fst (span Re.is_word file)) else None
      | None => None
      end
  end.

(** The literal part and the tail of each pattern. *)
Definition mid_of (ft : ftype) : string :=
  match ft with
  | source => "-source."
  | raw => "-raw."
  | tidy => ".tsv"
  | sidecar => ".yml"
  end.

Definition accept_of (ft : ftype) : string -> bool :=
  match ft with
  | source | raw => ext_ok
  | tidy | sidecar => Re.at_end
  end.

(** The grouping dictionary the classification loop builds. *)
Definition grouping (listing : list (string * node)) : Dict.t files_dict :=
  fst (fold_left scan_step listing ([], [])).

(** The errors of rules 1, 3 and 4: the readme, the subfolders and the
    unmatched files. *)
Definition root_errors (p : project) (listing : list (string * node))
    : list string :=
  ((if readme p then [] else [readme_msg])
   ++ flat_map (fun item => subfolder_step [] item) listing
   ++ flat_map (fun item => snd (scan_step ([], []) item)) listing)%list.

(** The investigations rules 6 to 8 run over. *)
Definition working_set (target_inv : option string)
    (listing : list (string * node)) : Dict.t files_dict :=
  fst (filter_target target_inv (grouping listing, [])).

(** Every file a bundle lists is a regular file of the folder, not one of
    the ignored names, and the patterns give it this role and this
    investigation. *)
Definition bundle_sound (listing : list (string * node))
    (invs : Dict.t files_dict) : Prop :=
  forall inv fd ft file,
    Dict.get inv invs = Some fd -> In file (files_of ft fd) ->
    first_match file patterns = Some (ft, inv)
    /\ exists n, In (file, n) listing /\ isfile n = true.

(** The decoder's automaton run over a string. *)
Fixpoint run (st : state) (s : string) : option state :=
  match s with
  | EmptyString => Some st
  | String b s' =>
      match step st b with
      | Some st1 => run st1 s'
      | None => None
      end
  end.





(** Bytes of multi-byte sequences only. *)
Fixpoint nonascii (s : string) : bool :=
  match s with
  | EmptyString => true
  | String c s' => (128 <=? nat_of_ascii c)%nat && nonascii s'
  end.

(** The states the automaton reaches expect a continuation byte. *)
Definition wf_state (st : state) : Prop :=
  match st with
  | Start => True
  | Cont lo _ _ => 128 <= lo
  end.





Fixpoint srev (s : string) : string :=
  match s with
  | EmptyString => EmptyString
  | String c s' => srev s' ++ String c EmptyString
  end.

(** The first character of a message. *)
Definition head (s : string) : option ascii :=
  match s with
  | EmptyString => None
  | String c _ => Some c
  end.

(** The world after more messages on the error stream. *)
Definition log (w : world) (msgs : list string) : world :=
  {| cwd := cwd w; utc := utc w; ticks := ticks w;
     stderr := (stderr w ++ msgs)%list; stdout := stdout w;
     write_error := write_error w;
     datapackage_json := datapackage_json w |}.

(** A world in which nothing has happened yet. *)
Definition blank : world :=
  {| cwd := {| project_path := ""; readme := false; data := None |};
     utc := fun _ => {| year := 0; month := 0; day := 0;
                        hour := 0; minute := 0; second := 0 |};
     ticks := 0; stderr := []; stdout := [];
     write_error := None; datapackage_json := None |}.

(** What a computation returns and writes to the error stream, started
    from [blank]. *)
Definition outcome {A : Type} (m : M A) : result A * list string :=
  (fst (m blank), stderr (snd (m blank))).

(** The computation reads nothing of the world and only adds messages to
    the error stream: its result and messages are those of [outcome]. *)
Definition logging {A : Type} (m : M A) : Prop :=
  forall w, m w = (fst (outcome m), log w (snd (outcome m))).

(** The field records of a parsed sidecar: one per key whose value is a
    mapping, the key first under [name] and the value's attributes laid
    over it. *)
Definition fields_of (items : list (string * pyval)) : list pyval :=
  flat_map
    (fun item =>
       match snd item with
       | PDict attrs => [PDict (Dict.update [("name", PStr (fst item))] attrs)]
       | _ => []
       end) items.

Definition skipped_msg (field_name : string) : string :=
  "Warning: Field '" ++ field_name ++ "' is not a mapping; skipping.".

(** The warnings: one per key whose value is not a mapping. *)
Definition field_warnings (items : list (string * pyval)) : list string :=
  flat_map
    (fun item =>
       match snd item with
       | PDict _ => []
       | _ => [skipped_msg (fst item)]
       end) items.

(** The record of a field: [name] first, holding the attribute of that
    name when the mapping declares one and the key otherwise; then the
    other attributes as declared. *)
Definition field_record (field_name : string) (attrs : Dict.t pyval)
    : Dict.t pyval :=
  ("name",
   match Dict.get "name" attrs with
   | Some v => v
   | None => PStr field_name
   end)
  :: filter (fun kv => negb (String.eqb (fst kv) "name")) attrs.

(** The sidecars package mode finds. *)
Definition discovered (listing : list (string * node)) : Dict.t string :=
  fold_left discover_step listing [].

(** The investigations a run packages: all those found, or the requested
    one when it is among them. *)
Definition selected (target_inv : option string)
    (listing : list (string * node)) : option (Dict.t string) :=
  match requested target_inv with
  | Some t =>
      match Dict.get t (discovered listing) with
      | Some file => Some [(t, file)]
      | None => None
      end
  | None => Some (discovered listing)
  end.

Definition data_path_of (w : world) : string :=
  Path.join (project_path (cwd w)) "data".

Definition package_name_of (w : world) : string :=
  match Path.basename (project_path (cwd w)) with
  | EmptyString => "defaultdata-package"
  | name => name
  end.

(** The time stamp of a run started in [w]. *)
Definition created_of (w : world) : string := strftime (utc w (ticks w)).

Definition tsv_warning (data_path inv : string) : string :=
  "Warning: TSV file '" ++ Path.join data_path (inv ++ ".tsv")
    ++ "' not found. Using placeholder values.".

Definition report_msg (n : nat) : string :=
  "Created datapackage.json with " ++ str_of_nat n ++ " resource(s).".

(** The world after a run that went through: the clock read once, the
    warnings and the report printed, the document written. *)
Definition written (w : world) (msgs : list string) (resources : list pyval)
    : world :=
  {| cwd := cwd w; utc := utc w; ticks := S (ticks w);
     stderr := (stderr w ++ msgs)%list;
     stdout := (stdout w ++ [report_msg (length resources)])%list;
     write_error := write_error w;
     datapackage_json :=
       Some (PDict [("name", PStr (package_name_of w));
                    ("resources", PList resources)]) |}.

(** The world after a run that ended in the loop or at the write. *)
Definition stopped (w : world) (msgs : list string) : world :=
  {| cwd := cwd w; utc := utc w; ticks := S (ticks w);
     stderr := (stderr w ++ msgs)%list; stdout := stdout w;
     write_error := write_error w;
     datapackage_json := datapackage_json w |}.

(** A field of a resource descriptor. *)
Definition field (k : string) (r : pyval) : option pyval :=
  match r with
  | PDict d => Dict.get k d
  | _ => None
  end.



(** The results and messages of a loop, from those of its rounds: the loop
    stops at the first round that exits. *)
Fixpoint collect {B : Type} (os : list (result B * list string))
    : result (list B) * list string :=
  match os with
  | [] => (Ok [], [])
  | (Ok b, m) :: os' =>
      match collect os' with
      | (Ok bs, m') => (Ok (b :: bs), (m ++ m')%list)
      | (Exit e, m') => (Exit e, (m ++ m')%list)
      end
  | (Exit e, m) :: _ => (Exit e, m)
  end.

(** The digest of a file's bytes, fed in chunks. *)
Definition digest (md5 : hashlib_md5) (content : string) : string :=
  md5_hexdigest md5
    (fold_left (md5_update md5) (chunks 8192 content) (md5_new md5)).

(** The tidy file of an investigation is not there as a regular file. *)
Definition tidy_absent (listing : list (string * node)) (inv : string)
    : Prop :=
  forall n, Dict.get (inv ++ ".tsv") listing = Some n -> isfile n = false.

Definition no_sidecar_msg (target_inv : option string) : string :=
  "Error: Investigation '"
    ++ match requested target_inv with Some t => t | None => "" end
    ++ "' not found (no corresponding .yml file in data/).".

(** The rounds of the packaging loop, for a given time stamp. *)
Definition rounds (yaml : option (string -> string + pyval))
    (md5 : hashlib_md5) (data_path : string)
    (listing : list (string * node)) (created : string) (sel : Dict.t string)
    : result (list pyval) * list string :=
  collect
    (map (fun item =>
            outcome (package_one yaml md5 data_path listing created item))
       sel).





(** The document a run writes. *)
Definition document (w : world) (resources : list pyval) : pyval :=
  PDict [("name", PStr (package_name_of w)); ("resources", PList resources)].

(** ** More vocabulary: what a conforming project is *)

(** The header of the tidy file of a bundle reads and holds a tab. *)
Definition tidy_passes (listing : list (string * node)) (fd : files_dict)
    : Prop :=
  exists tidy_file content line,
    tidy_files fd = [tidy_file]
    /\ open_ listing tidy_file = inr content
    /\ readline content = Line line
    /\ has_tab line = true.

(** The sidecar of a bundle opens and parses. *)
Definition sidecar_passes (yaml : option (string -> string + pyval))
    (listing : list (string * node)) (fd : files_dict) : Prop :=
  exists sidecar_file safe_load content v,
    sidecar_files fd = [sidecar_file]
    /\ yaml = Some safe_load
    /\ open_ listing sidecar_file = inr content
    /\ safe_load content = inr v.

(** The convention the check enforces. *)
Definition conforms (yaml : option (string -> string + pyval))
    (p : project) (target_inv : option string) : Prop :=
  readme p = true
  /\ exists listing,
       data p = Some listing
       /\ (forall item, In item listing -> isdir (snd item) = false)
       /\ (forall file n, In (file, n) listing -> isfile n = true ->
             classify file <> Unmatched)
       /\ (forall t, requested target_inv = Some t ->
             In t (Dict.keys (grouping listing)))
       /\ (forall inv fd, In (inv, fd) (working_set target_inv listing) ->
             length (raw_files fd) = 1
             /\ length (source_files fd) <= 1
             /\ tidy_passes listing fd
             /\ sidecar_passes yaml listing fd).

(** What a package run needs to go through. *)
Definition packageable (yaml : option (string -> string + pyval))
    (target_inv : option string) (w : world) : Prop :=
  exists listing sel,
    data (cwd w) = Some listing
    /\ selected target_inv listing = Some sel
    /\ (forall inv file, In (inv, file) sel ->
          (forall e, Dict.get (inv ++ ".tsv") listing <> Some (Unreadable e))
          /\ exists items, try_load yaml listing file = inr (PDict items))
    /\ write_error w = None.

(** ** The data of the examples *)

(** [n] times the character [c]. *)
Fixpoint replicate (n : nat) (c : ascii) : string :=
  match n with
  | 0 => EmptyString
  | S n' => String c (replicate n' c)
  end.

(** A header line without a tab, the rest of the first chunk, and a byte
    that is not UTF-8 in the second chunk, which is never read. *)
Definition long_tidy : string :=
  "abc" ++ String lf (replicate 8188 "x"%char)
    ++ String (ascii_of_nat 255) EmptyString.

Definition example_sidecar : list (string * Dict.t pyval) :=
  [("col_a", [("type", PStr "string")]);
   ("col_b", [("type", PStr "integer")])].

(** A parser that reads every file as the example sidecar. *)
Definition example_yaml : option (string -> string + pyval) :=
  Some (fun _ =>
          inr (PDict (map (fun ka => (fst ka, PDict (snd ka)))
                        example_sidecar))).

(** A stand-in for the hashing library: it counts the bytes fed. *)
Definition example_md5 : hashlib_md5 :=
  {| md5_state := nat;
     md5_new := 0;
     md5_update := fun n s => n + String.length s;
     md5_hexdigest := str_of_nat |}.

(** A project whose data folder holds one sidecar, with a stem that is not
    a word, and nothing else. *)
Definition example_listing : list (string * node) :=
  [("my-data.yml", File "")].

Definition example_world : world :=
  {| cwd := {| project_path := "/home/u/proj"; readme := true;
               data := Some example_listing |};
     utc := fun n => {| year := 2025; month := 3; day := 9;
                        hour := 7; minute := 5; second := n |};
     ticks := 0; stderr := []; stdout := [];
     write_error := None; datapackage_json := None |}.

Definition example_after : world :=
  snd (package_investigations example_yaml example_md5 None example_world).

(** A project that follows the convention. *)
Definition example_project : project :=
  {| project_path := "/home/u/proj"; readme := true;
     data := Some [(".gitignore", File "");
                   ("trial_1-raw.csv", File "a,b");
                   ("trial_1.tsv", File ("a" ++ String tab "b"));
                   ("trial_1.yml", File "");
                   ("trial_1-source.R", File "")] |}.


(** A stand-in hash that keeps the bytes fed. *)
Definition example_stream : hashlib_md5 :=
  {| md5_state := string;
     md5_new := EmptyString;
     md5_update := fun h s => h ++ s;
     md5_hexdigest := fun h => h |}.

(** * Properties *)


(** ** Vocabulary of the statements *)

(** ** Strings *)

Lemma append_nil_r (s : string) : s ++ "" = s.
Proof. induction s; simpl; congruence. Qed.

Lemma append_assoc (a b c : string) : (a ++ b) ++ c = a ++ b ++ c.
Proof. induction a; simpl; congruence. Qed.


Lemma substring_prefix (w rest : string) :
  substring 0 (String.length w) (w ++ rest) = w.
Proof.
  induction w as [|c w IH]; simpl.
  - destruct rest; reflexivity.
  - now rewrite IH.
Qed.

Lemma strip_prefix_app (pre e : string) : strip_prefix pre (pre ++ e) = Some e.
Proof.
  induction pre as [|c pre IH]; simpl; [reflexivity|].
  now rewrite Ascii.eqb_refl.
Qed.

Lemma strip_prefix_inv (pre s e : string) :
  strip_prefix pre s = Some e -> s = pre ++ e.
Proof.
  revert s; induction pre as [|a pre IH]; intros s H; simpl in *.
  - congruence.
  - destruct s as [|b s]; [discriminate|].
    destruct (Ascii.eqb_spec a b) as [->|]; [|discriminate].
    now rewrite (IH _ H).
Qed.

Lemma span_app (p : ascii -> bool) (s : string) :
  s = fst (span p s) ++ snd (span p s).
Proof.
  induction s as [|c s IH]; simpl; [reflexivity|].
  destruct (p c); simpl; congruence.
Qed.

Lemma span_all_word (s : string) : all_word (fst (span Re.is_word s)) = true.
Proof.
  induction s as [|c s IH]; simpl; [reflexivity|].
  destruct (Re.is_word c) eqn:E; simpl; [|reflexivity].
  now rewrite E.
Qed.

(** A word followed by something that does not start with a word character
    is the span of the whole. *)
Lemma span_word_app (w rest : string) :
  all_word w = true ->
  match rest with
  | EmptyString => True
  | String c _ => Re.is_word c = false
  end ->
  span Re.is_word (w ++ rest) = (w, rest).
Proof.
  intros Hw Hr. induction w as [|c w IH]; simpl in *.
  - destruct rest as [|c r]; simpl; [reflexivity|]. now rewrite Hr.
  - apply andb_true_iff in Hw as [Hc Hw]. rewrite Hc, (IH Hw). reflexivity.
Qed.

Lemma span_rest_head (p : ascii -> bool) (s : string) :
  match snd (span p s) with
  | EmptyString => True
  | String c _ => p c = false
  end.
Proof.
  induction s as [|c s IH]; simpl; [exact I|].
  destruct (p c) eqn:E; simpl; assumption.
Qed.

(** ** The matcher on the four patterns *)

Section Matcher.

Context {A : Type}.
Variable p : ascii -> bool.
Variable k : nat -> string -> option A.

(** When what follows cannot start inside the class, the greedy repetition
    takes the whole span and never gives a character back. *)
Hypothesis k_stops : forall pos c s, p c = true -> k pos (String c s) = None.

Lemma repeat_span (s : string) (pos : nat) :
  Re.repeat p k pos s =
  match fst (span p s) with
  | EmptyString => None
  | String _ _ => k (pos + String.length (fst (span p s))) (snd (span p s))
  end.
Proof.
  revert pos; induction s as [|c s IH]; intro pos; simpl; [reflexivity|].
  destruct (p c) eqn:Hc; simpl; [|reflexivity].
  rewrite IH.
  destruct (fst (span p s)) as [|d w] eqn:Hw.
  - simpl. replace (pos + 1) with (S pos) by lia.
    destruct s as [|e s']; simpl in *.
    + reflexivity.
    + destruct (p e) eqn:He; simpl in *; [discriminate|reflexivity].
  - simpl String.length.
    replace (S pos + S (String.length w)) with (pos + S (S (String.length w)))
      by lia.
    destruct (k (pos + S (S (String.length w))) (snd (span p s))) eqn:Hk;
      [reflexivity|].
    (* the continuation failed after the whole span: it fails here too *)
    destruct s as [|e s']; simpl in *; [discriminate|].
    destruct (p e) eqn:He; simpl in *; [|discriminate].
    now apply k_stops.
Qed.

End Matcher.

(** The tail [.+$]. *)
Lemma repeat_dot_end (marks : list nat) (e : string) (pos : nat) :
  Re.repeat (Re.mem Re.Dot) (Re.exec false [Re.At_end] marks) pos e =
  if ext_ok e then Some marks else None.
Proof.
  revert pos; induction e as [|c e IH]; intro pos; simpl; [reflexivity|].
  destruct (Ascii.eqb c Re.newline); simpl; [reflexivity|].
  rewrite IH. destruct (ext_ok e).
  - now rewrite orb_true_r.
  - rewrite orb_false_r. destruct (Re.at_end e); reflexivity.
Qed.

(** A run of literals consumes exactly that prefix. *)
Lemma exec_lits (mid : string) (tl : list Re.op) (marks : list nat)
    (pos : nat) (s : string) :
  Re.exec false (Re.lits mid ++ tl) marks pos s =
  match strip_prefix mid s with
  | Some e => Re.exec false tl marks (pos + String.length mid) e
  | None => None
  end.
Proof.
  revert pos s; induction mid as [|a mid IH]; intros pos s; simpl.
  - now rewrite Nat.add_0_r.
  - destruct s as [|b s]; [reflexivity|].
    rewrite (Ascii.eqb_sym b a).
    destruct (Ascii.eqb a b); [|reflexivity].
    rewrite IH. now replace (S pos + String.length mid)
      with (pos + S (String.length mid)) by lia.
Qed.

Section Pattern.

Variable c0 : ascii.
Variable mid' : string.
Variable tl : list Re.op.
Variable accept : string -> bool.

Hypothesis c0_not_word : Re.is_word c0 = false.
Hypothesis tl_accept : forall marks pos e,
  Re.exec false tl marks pos e = if accept e then Some marks else None.

Lemma match_shape (file : string) :
  option_map (Re.group1 file)
    (Re.match_ (head_ops ++ Re.lits (String c0 mid') ++ tl) file)
  = shape (String c0 mid') accept file.
Proof.
  unfold Re.match_, head_ops, shape.
  cbn [app Re.exec Nat.eqb].
  rewrite repeat_span.
  - change (Re.mem Re.Word) with Re.is_word.
    destruct (fst (span Re.is_word file)) as [|d w] eqn:Hw; [reflexivity|].
    cbn [Re.exec app]. rewrite <- Hw.
    change (Re.One (Re.Lit c0) :: Re.lits mid' ++ tl)
      with (Re.lits (String c0 mid') ++ tl).
    rewrite exec_lits.
    destruct (strip_prefix (String c0 mid') (snd (span Re.is_word file)));
      [|reflexivity].
    rewrite tl_accept. destruct (accept s); [|reflexivity].
    cbn [option_map Re.group1 app]. f_equal.
    rewrite Nat.add_0_l, Nat.sub_0_r.
    rewrite (span_app Re.is_word file) at 2.
    apply substring_prefix.
  - intros pos c s Hc. cbn [Re.lits app Re.exec Re.mem] in *.
    destruct (Ascii.eqb_spec c c0) as [->|]; [congruence|reflexivity].
Qed.

(** A file name the shape accepts is the captured word, [mid] and an
    accepted rest. *)
Lemma shape_inv (file X : string) :
  shape (String c0 mid') accept file = Some X ->
  all_word X = true /\ X <> "" /\
  exists e, accept e = true /\ file = X ++ String c0 mid' ++ e.
Proof.
  unfold shape. intro H.
  destruct (fst (span Re.is_word file)) as [|d w] eqn:Hw; [discriminate|].
  destruct (strip_prefix (String c0 mid') (snd (span Re.is_word file)))
    as [e|] eqn:He; [|discriminate].
  destruct (accept e) eqn:Ha; [|discriminate].
  injection H as <-. split; [|split].
  - rewrite <- Hw. apply span_all_word.
  - discriminate.
  - exists e. split; [assumption|].
    rewrite (span_app Re.is_word file) at 1.
    now rewrite Hw, (strip_prefix_inv _ _ _ He).
Qed.

Lemma shape_intro (X e : string) :
  all_word X = true -> X <> "" -> accept e = true ->
  shape (String c0 mid') accept (X ++ String c0 mid' ++ e) = Some X.
Proof.
  intros HX Hne Ha. unfold shape.
  rewrite (span_word_app X (String c0 mid' ++ e) HX) by exact c0_not_word.
  cbn [fst snd]. destruct X as [|d w]; [congruence|].
  now rewrite strip_prefix_app, Ha.
Qed.

End Pattern.

Lemma exec_dot_end (marks : list nat) (pos : nat) (e : string) :
  Re.exec false [Re.Plus Re.Dot; Re.At_end] marks pos e =
  if ext_ok e then Some marks else None.
Proof. apply repeat_dot_end. Qed.

Lemma exec_end (marks : list nat) (pos : nat) (e : string) :
  Re.exec false [Re.At_end] marks pos e =
  if Re.at_end e then Some marks else None.
Proof. reflexivity. Qed.

Lemma pattern_shape (ft : ftype) (file : string) :
  option_map (Re.group1 file) (Re.match_ (pattern_of ft) file)
  = shape (mid_of ft) (accept_of ft) file.
Proof.
  destruct ft.
  - apply (match_shape "-"%char "source." _ ext_ok eq_refl exec_dot_end).
  - apply (match_shape "-"%char "raw." _ ext_ok eq_refl exec_dot_end).
  - apply (match_shape "."%char "tsv" _ Re.at_end eq_refl exec_end).
  - apply (match_shape "."%char "yml" _ Re.at_end eq_refl exec_end).
Qed.

Lemma at_end_cases (e : string) : Re.at_end e = true <-> e = "" \/ e = nl.
Proof.
  split.
  - destruct e as [|c [|d e]]; simpl; intro H; try discriminate.
    + now left.
    + right. apply Ascii.eqb_eq in H. now subst.
  - intros [->| ->]; reflexivity.
Qed.

(** The shape of a role is the role's set of names. *)
Lemma shape_has_role (ft : ftype) (X file : string) :
  shape (mid_of ft) (accept_of ft) file = Some X <->
  all_word X = true /\ X <> "" /\ has_role ft X file.
Proof.
  split.
  - intro H.
    assert (Hi : all_word X = true /\ X <> "" /\
                 exists e, accept_of ft e = true /\ file = X ++ mid_of ft ++ e).
    { destruct ft; eapply shape_inv; exact H. }
    destruct Hi as (HX & Hne & e & Ha & ->). split; [|split]; trivial.
    destruct ft; simpl in *.
    + now exists e.
    + now exists e.
    + apply at_end_cases in Ha as [-> | ->]; [left|right];
        now rewrite ?append_assoc, ?append_nil_r.
    + apply at_end_cases in Ha as [-> | ->]; [left|right];
        now rewrite ?append_assoc, ?append_nil_r.
  - intros (HX & Hne & Hr).
    assert (He : exists e, accept_of ft e = true /\ file = X ++ mid_of ft ++ e).
    { destruct ft; simpl in Hr.
      - destruct Hr as (E & HE & ->). now exists E.
      - destruct Hr as (E & HE & ->). now exists E.
      - destruct Hr as [-> | ->]; [exists ""|exists nl];
          now rewrite ?append_assoc.
      - destruct Hr as [-> | ->]; [exists ""|exists nl];
          now rewrite ?append_assoc.  }
    destruct He as (e & Ha & ->).
    destruct ft; now apply shape_intro.
Qed.

(** Two roles never share a name. *)
Lemma shape_exclusive (ft1 ft2 : ftype) (file X1 X2 : string) :
  shape (mid_of ft1) (accept_of ft1) file = Some X1 ->
  shape (mid_of ft2) (accept_of ft2) file = Some X2 ->
  ft1 = ft2.
Proof.
  unfold shape.
  destruct (fst (span Re.is_word file)) as [|w0 w]; [discriminate|].
  destruct (snd (span Re.is_word file)) as [|a r];
    [destruct ft1; discriminate|].
  destruct r as [|b r];
    [destruct ft1; cbn [strip_prefix mid_of];
     match goal with |- context [Ascii.eqb ?x a] => destruct (Ascii.eqb x a) end;
     discriminate|].
  destruct ft1, ft2; cbn [strip_prefix mid_of]; try reflexivity;
    destruct (Ascii.eqb_spec "-" a); try discriminate;
    destruct (Ascii.eqb_spec "." a); try discriminate;
    destruct (Ascii.eqb_spec "s" b); try discriminate;
    destruct (Ascii.eqb_spec "r" b); try discriminate;
    destruct (Ascii.eqb_spec "t" b); try discriminate;
    destruct (Ascii.eqb_spec "y" b); try discriminate;
    subst; discriminate.
Qed.

(** The classification loop picks role [ft] and name [X] exactly for the
    names of shape [ft], [X]. *)
Lemma first_match_shape (file : string) (ft : ftype) (X : string) :
  first_match file patterns = Some (ft, X) <->
  shape (mid_of ft) (accept_of ft) file = Some X.
Proof.
  unfold patterns, first_match.
  pose proof (pattern_shape source file) as Hs.
  pose proof (pattern_shape raw file) as Hr.
  pose proof (pattern_shape tidy file) as Ht.
  pose proof (pattern_shape sidecar file) as Hy.
  cbn [pattern_of] in *.
  pose proof (shape_exclusive source ft file) as Es.
  pose proof (shape_exclusive raw ft file) as Er.
  pose proof (shape_exclusive tidy ft file) as Et.
  split.
  - intro H.
    destruct (Re.match_ source_pattern file); cbn [option_map] in Hs;
      [injection H as <- <-; now rewrite <- Hs|].
    destruct (Re.match_ raw_pattern file); cbn [option_map] in Hr;
      [injection H as <- <-; now rewrite <- Hr|].
    destruct (Re.match_ tidy_pattern file); cbn [option_map] in Ht;
      [injection H as <- <-; now rewrite <- Ht|].
    destruct (Re.match_ sidecar_pattern file); cbn [option_map] in Hy;
      [injection H as <- <-; now rewrite <- Hy|].
    discriminate.
  - intro H.
    destruct (Re.match_ source_pattern file); cbn [option_map] in Hs.
    { assert (Hft := Es _ _ (eq_sym Hs) H). subst ft. congruence. }
    destruct (Re.match_ raw_pattern file); cbn [option_map] in Hr.
    { assert (Hft := Er _ _ (eq_sym Hr) H). subst ft. congruence. }
    destruct (Re.match_ tidy_pattern file); cbn [option_map] in Ht.
    { assert (Hft := Et _ _ (eq_sym Ht) H). subst ft. congruence. }
    destruct (Re.match_ sidecar_pattern file); cbn [option_map] in Hy.
    { destruct ft; cbn [mid_of accept_of] in *; congruence. }
    destruct ft; cbn [mid_of accept_of] in *; congruence.
Qed.

Lemma first_match_has_role (file : string) (ft : ftype) (X : string) :
  first_match file patterns = Some (ft, X) <->
  all_word X = true /\ X <> "" /\ has_role ft X file.
Proof. rewrite first_match_shape. apply shape_has_role. Qed.

(** A name that starts with a word character is not one of the two names
    the loop skips. *)
Lemma word_head_not_ignored (X rest : string) :
  all_word X = true -> X <> "" -> always_ignored (X ++ rest) = false.
Proof.
  destruct X as [|c X]; [congruence|]. intros H _.
  simpl in H. apply andb_true_iff in H as [Hc _].
  unfold always_ignored. cbn [append String.eqb].
  destruct (Ascii.eqb_spec c "."); [subst; discriminate|reflexivity].
Qed.

Lemma has_role_prefix (ft : ftype) (X file : string) :
  has_role ft X file -> exists rest, file = X ++ rest.
Proof.
  destruct ft; simpl.
  - intros (E & _ & ->). eauto.
  - intros (E & _ & ->). eauto.
  - intros [-> | ->]; rewrite ?append_assoc; eauto.
  - intros [-> | ->]; rewrite ?append_assoc; eauto.
Qed.

Lemma ext_ok_plain (E : string) :
  E <> "" -> no_newline E = true -> ext_ok E = true.
Proof.
  induction E as [|c E IH]; [congruence|]. intros _ H. simpl in *.
  apply andb_true_iff in H as [Hc HE]. rewrite Hc. simpl.
  destruct E as [|d E]; [reflexivity|].
  rewrite IH by (congruence || assumption). apply orb_true_r.
Qed.

(** ** File classification *)

(** C1, as the specification states it, fails: the extension [E] of a
    source or raw name has to hold a character other than newline before
    any newline, so [a-source.] followed by a newline is not classified as
    a source file although its extension is not empty; and a tidy name
    followed by one newline is classified although it has none of the four
    forms. *)
Lemma classify_newline_counterexample :
  all_word "a" = true /\ "a" <> "" /\ nl <> ""
  /\ classify (role_name source "a" nl) <> Matched source "a"
  /\ always_ignored ("a.tsv" ++ nl) = false
  /\ (forall ft X E, all_word X = true -> X <> "" -> E <> "" ->
      "a.tsv" ++ nl <> role_name ft X E)
  /\ classify ("a.tsv" ++ nl) <> Unmatched.
Proof.
  split; [reflexivity|]. do 4 (split; [discriminate || reflexivity|]).
  split; [|discriminate].
  intros ft X E HX Hne HE.
  destruct X as [|c [|d X]]; [congruence| |].
  - destruct ft; discriminate.
  - intro Heq. assert (d = "."%char) by (destruct ft; simpl in Heq; congruence).
    subst d. simpl in HX. now rewrite andb_false_r in HX.
Qed.

(** C1 (amended): for every name [X-source.E] or [X-raw.E] where [X] is a
    non-empty string over [A-Za-z0-9_] and [E] is a non-empty run of
    characters other than newline, possibly followed by one last newline,
    and for every name [X.tsv] or [X.yml], possibly followed by one last
    newline, the classifier gives exactly that role with investigation name
    [X]; in particular it does so for every extension [E] that is not empty
    and holds no newline.  Every other name, the two ignored ones apart, is
    reported unmatched.  No name matches two of the four patterns. *)
Theorem classify_roles :
  (forall ft X file,
      all_word X = true -> X <> "" -> has_role ft X file ->
      classify file = Matched ft X)
  /\ (forall ft X E,
        all_word X = true -> X <> "" -> E <> "" -> no_newline E = true ->
        classify (role_name ft X E) = Matched ft X)
  /\ (forall file,
        always_ignored file = false ->
        (forall ft X, all_word X = true -> X <> "" -> ~ has_role ft X file) ->
        classify file = Unmatched)
  /\ (forall file ft1 ft2 m1 m2,
        Re.match_ (pattern_of ft1) file = Some m1 ->
        Re.match_ (pattern_of ft2) file = Some m2 ->
        ft1 = ft2).
Proof.
  assert (H1 : forall ft X file,
             all_word X = true -> X <> "" -> has_role ft X file ->
             classify file = Matched ft X).
  { intros ft X file HX Hne Hr. unfold classify.
    destruct (has_role_prefix _ _ _ Hr) as [rest Hf].
    rewrite Hf at 1. rewrite (word_head_not_ignored _ _ HX Hne).
    assert (Hm : first_match file patterns = Some (ft, X))
      by now apply first_match_has_role.
    now rewrite Hm. }
  split; [exact H1|]. split; [|split].
  - intros ft X E HX Hne HE Hnl. apply H1; trivial.
    destruct ft; simpl.
    + exists E. split; [now apply ext_ok_plain|reflexivity].
    + exists E. split; [now apply ext_ok_plain|reflexivity].
    + now left.
    + now left.
  - intros file Hi Hno. unfold classify. rewrite Hi.
    destruct (first_match file patterns) as [[ft X]|] eqn:Hm; [|reflexivity].
    apply first_match_has_role in Hm as (HX & Hne & Hr).
    now destruct (Hno ft X HX Hne).
  - intros file ft1 ft2 m1 m2 Hm1 Hm2.
    pose proof (pattern_shape ft1 file) as S1.
    pose proof (pattern_shape ft2 file) as S2.
    rewrite Hm1 in S1. rewrite Hm2 in S2.
    exact (shape_exclusive _ _ _ _ _ (eq_sym S1) (eq_sym S2)).
Qed.

Lemma classify_roles_witness :
  classify "ab_1-source.R" = Matched source "ab_1"
  /\ classify ("ab_1.tsv" ++ nl) = Matched tidy "ab_1"
  /\ classify "my-data.yml" = Unmatched.
Proof.
  destruct classify_roles as (H1 & H2 & H3 & _).
  split; [|split].
  - apply (H2 source "ab_1" "R"); [reflexivity|discriminate|discriminate|
                                     reflexivity].
  - apply (H1 tidy "ab_1"); [reflexivity|discriminate|now right].
  - apply H3; [reflexivity|].
    intros ft X HX Hne Hr.
    assert (Hm : first_match "my-data.yml" patterns = Some (ft, X))
      by now apply first_match_has_role.
    vm_compute in Hm. discriminate.
Defined.

(** ** Dictionaries and loops *)

Lemma get_set {V : Type} (k k' : string) (v : V) (d : Dict.t V) :
  Dict.get k (Dict.set k' v d) =
  if String.eqb k' k then Some v else Dict.get k d.
Proof.
  induction d as [|[k0 v0] d IH]; simpl.
  - destruct (String.eqb k' k); reflexivity.
  - destruct (String.eqb_spec k0 k') as [->|Hk0]; simpl.
    + destruct (String.eqb k' k); reflexivity.
    + rewrite IH. destruct (String.eqb_spec k0 k) as [->|]; [|reflexivity].
      destruct (String.eqb_spec k' k); [congruence|reflexivity].
Qed.

Lemma keys_set {V : Type} (k : string) (v : V) (d : Dict.t V) :
  Dict.keys (Dict.set k v d) =
  match Dict.get k d with
  | Some _ => Dict.keys d
  | None => (Dict.keys d ++ [k])%list
  end.
Proof.
  induction d as [|[k0 v0] d IH]; simpl; [reflexivity|].
  destruct (String.eqb k0 k); simpl; [reflexivity|].
  rewrite IH. destruct (Dict.get k d); reflexivity.
Qed.

Lemma get_None_keys {V : Type} (k : string) (d : Dict.t V) :
  Dict.get k d = None <-> ~ In k (Dict.keys d).
Proof.
  induction d as [|[k0 v0] d IH]; simpl; [tauto|].
  destruct (String.eqb_spec k0 k); [split; [discriminate|tauto]|].
  rewrite IH. tauto.
Qed.

Lemma get_In {V : Type} (k : string) (v : V) (d : Dict.t V) :
  Dict.get k d = Some v -> In (k, v) d.
Proof.
  induction d as [|[k0 v0] d IH]; simpl; [discriminate|].
  destruct (String.eqb_spec k0 k) as [->|]; [|auto].
  intro H; injection H as ->. now left.
Qed.

Lemma In_get {V : Type} (k : string) (v : V) (d : Dict.t V) :
  NoDup (Dict.keys d) -> In (k, v) d -> Dict.get k d = Some v.
Proof.
  induction d as [|[k0 v0] d IH]; simpl; [tauto|].
  intros Hnd [Heq|Hin]; inversion Hnd as [|? ? Hk0 Hd]; subst.
  - injection Heq as -> ->. now rewrite String.eqb_refl.
  - destruct (String.eqb_spec k0 k) as [->|]; [|auto].
    exfalso. apply Hk0. apply (in_map fst) in Hin. exact Hin.
Qed.

(** Setting a key keeps the keys distinct. *)
Lemma NoDup_keys_set {V : Type} (k : string) (v : V) (d : Dict.t V) :
  NoDup (Dict.keys d) -> NoDup (Dict.keys (Dict.set k v d)).
Proof.
  intro H. rewrite keys_set. destruct (Dict.get k d) eqn:E; [assumption|].
  apply get_None_keys in E.
  apply NoDup_app; [assumption|repeat constructor; auto|].
  intros x Hx [<-|[]]. contradiction.
Qed.

(** A loop that only appends to the error list. *)
Lemma fold_append {A : Type} (f : A -> list string) (l : list A)
    (errors : list string) :
  fold_left (fun errs a => (errs ++ f a)%list) l errors
  = (errors ++ flat_map f l)%list.
Proof.
  revert errors; induction l as [|a l IH]; intro errors; simpl.
  - now rewrite app_nil_r.
  - now rewrite IH, app_assoc.
Qed.

(** ** The shape of a check run *)

Lemma scan_step_split (invs : Dict.t files_dict) (errors : list string)
    (item : string * node) :
  scan_step (invs, errors) item
  = (fst (scan_step (invs, []) item),
     (errors ++ snd (scan_step ([], []) item))%list).
Proof.
  destruct item as [file n]. unfold scan_step.
  destruct (always_ignored file); cbn [fst snd]; [now rewrite app_nil_r|].
  destruct (isfile n); cbn [negb fst snd]; [|now rewrite app_nil_r].
  destruct (first_match file patterns) as [[ft inv]|]; cbn [fst snd app];
    [now rewrite app_nil_r|reflexivity].
Qed.

Lemma scan_fold (listing : list (string * node)) (invs : Dict.t files_dict)
    (errors : list string) :
  fold_left scan_step listing (invs, errors)
  = (fst (fold_left scan_step listing (invs, [])),
     (errors ++ flat_map (fun item => snd (scan_step ([], []) item)) listing)
       %list).
Proof.
  revert invs errors; induction listing as [|item l IH]; intros invs errors.
  - simpl. now rewrite app_nil_r.
  - cbn [fold_left flat_map].
    rewrite (scan_step_split invs errors), IH.
    rewrite (scan_step_split invs []), (IH _ (_ ++ _)%list).
    cbn [fst snd app]. now rewrite app_assoc.
Qed.

Lemma subfolder_fold (listing : list (string * node)) (errors : list string) :
  fold_left subfolder_step listing errors
  = (errors ++ flat_map (fun item => subfolder_step [] item) listing)%list.
Proof.
  revert errors; induction listing as [|item l IH]; intro errors; simpl.
  - now rewrite app_nil_r.
  - rewrite IH. rewrite app_assoc. f_equal.
    unfold subfolder_step. destruct (isdir (snd item)); simpl;
      [reflexivity|now rewrite app_nil_r].
Qed.

Lemma filter_target_split (target_inv : option string)
    (invs : Dict.t files_dict) (errors : list string) :
  filter_target target_inv (invs, errors)
  = (fst (filter_target target_inv (invs, [])),
     (errors ++ snd (filter_target target_inv (invs, [])))%list).
Proof.
  unfold filter_target. destruct (requested target_inv) as [t|].
  - destruct (Dict.get t invs); simpl; [now rewrite app_nil_r|reflexivity].
  - simpl. now rewrite app_nil_r.
Qed.

(** A run of the check, phase by phase. *)
Lemma check_phases (yaml : option (string -> string + pyval)) (p : project)
    (listing : list (string * node)) (target_inv : option string) :
  data p = Some listing ->
  check_project_structure yaml p target_inv
  = (root_errors p listing
     ++ snd (filter_target target_inv (grouping listing, []))
     ++ flat_map (fun kv => structure_errors (fst kv) (snd kv))
          (working_set target_inv listing)
     ++ flat_map (fun kv => content_errors yaml listing (snd kv))
          (working_set target_inv listing))%list.
Proof.
  intro Hd. unfold check_project_structure. rewrite Hd.
  rewrite subfolder_fold, scan_fold, filter_target_split.
  rewrite !fold_append. unfold root_errors, working_set, grouping.
  cbn [app]. now rewrite <- !app_assoc.
Qed.

(** ** What the grouping dictionary holds *)

Lemma scan_fold_fst (l : list (string * node)) (invs : Dict.t files_dict)
    (errors : list string) :
  fst (fold_left scan_step l (invs, errors))
  = fst (fold_left scan_step l (invs, [])).
Proof. now rewrite scan_fold. Qed.

(** Induction over the classification loop. *)
Lemma grouping_ind (listing : list (string * node))
    (P : Dict.t files_dict -> Prop) :
  P [] ->
  (forall invs item,
      In item listing -> P invs -> P (fst (scan_step (invs, []) item))) ->
  P (grouping listing).
Proof.
  intros H0 Hstep. unfold grouping.
  assert (G : forall l invs,
             (forall item, In item l -> In item listing) -> P invs ->
             P (fst (fold_left scan_step l (invs, [])))).
  { induction l as [|item l IH]; intros invs Hin HP; [exact HP|].
    cbn [fold_left]. rewrite (scan_step_split invs []), scan_fold_fst.
    apply IH; [intros; apply Hin; now right|].
    apply Hstep; [apply Hin; now left|exact HP]. }
  now apply G.
Qed.

Lemma files_of_append (ft ft' : ftype) (file : string) (fd : files_dict) :
  files_of ft' (append_file ft file fd) =
  if match ft, ft' with
     | source, source | raw, raw | tidy, tidy | sidecar, sidecar => true
     | _, _ => false
     end
  then (files_of ft' fd ++ [file])%list else files_of ft' fd.
Proof. destruct ft, ft'; reflexivity. Qed.

Lemma grouping_sound (listing : list (string * node)) :
  bundle_sound listing (grouping listing).
Proof.
  apply grouping_ind.
  - intros inv fd ft file H. discriminate.
  - intros invs [file n] Hin IH inv fd ft f Hget Hf.
    unfold scan_step in Hget.
    destruct (always_ignored file); [now apply IH with fd|].
    destruct (isfile n) eqn:Hn; cbn [negb] in Hget; [|now apply IH with fd].
    destruct (first_match file patterns) as [[ft0 inv0]|] eqn:Hm;
      cbn [fst] in Hget; [|now apply IH with fd].
    unfold add_file in Hget. rewrite get_set in Hget.
    destruct (String.eqb_spec inv0 inv) as [->|]; [|now apply IH with fd].
    injection Hget as <-. rewrite files_of_append in Hf.
    assert (Hold : forall fd0, In f (files_of ft fd0) ->
              match Dict.get inv invs with Some fd1 => fd1 | None => no_files end
              = fd0 ->
              first_match f patterns = Some (ft, inv)
              /\ exists n0, In (f, n0) listing /\ isfile n0 = true).
    { intros fd0 Hf0 Hd. destruct (Dict.get inv invs) as [fd1|] eqn:Hg.
      - subst fd0. now apply IH with fd1.
      - subst fd0. destruct ft; destruct Hf0. }
    destruct ft0, ft; try (now apply (Hold _ Hf eq_refl));
      apply in_app_or in Hf as [Hf|[<-|[]]];
      try (now apply (Hold _ Hf eq_refl)); (split; [exact Hm|now exists n]).
Qed.

(** The names of the investigations are distinct. *)
Lemma grouping_NoDup (listing : list (string * node)) :
  NoDup (Dict.keys (grouping listing)).
Proof.
  apply grouping_ind; [constructor|].
  intros invs [file n] _ IH. unfold scan_step.
  destruct (always_ignored file); [exact IH|].
  destruct (isfile n); cbn [negb]; [|exact IH].
  destruct (first_match file patterns) as [[ft0 inv0]|]; cbn [fst];
    [|exact IH].
  now apply NoDup_keys_set.
Qed.

(** ... and each is a non-empty word. *)
Lemma grouping_names (listing : list (string * node)) (inv : string) :
  In inv (Dict.keys (grouping listing)) -> all_word inv = true /\ inv <> "".
Proof.
  revert inv. apply grouping_ind; [intros inv []|].
  intros invs [file n] _ IH inv. unfold scan_step.
  destruct (always_ignored file); [apply IH|].
  destruct (isfile n); cbn [negb]; [|apply IH].
  destruct (first_match file patterns) as [[ft0 inv0]|] eqn:Hm; cbn [fst];
    [|apply IH].
  unfold add_file. rewrite keys_set.
  destruct (Dict.get inv0 invs); [apply IH|].
  intro H. apply in_app_or in H as [H|[<-|[]]]; [now apply IH|].
  apply first_match_has_role in Hm. tauto.
Qed.


(** The working set is a part of the grouping, with distinct names. *)
Lemma working_set_get (target_inv : option string)
    (listing : list (string * node)) (inv : string) (fd : files_dict) :
  In (inv, fd) (working_set target_inv listing) ->
  Dict.get inv (grouping listing) = Some fd.
Proof.
  unfold working_set, filter_target.
  destruct (requested target_inv) as [t|].
  - destruct (Dict.get t (grouping listing)) eqn:Hg; cbn [fst].
    + intros [H|[]]. now injection H as <- <-.
    + intros [].
  - cbn [fst]. apply In_get, grouping_NoDup.
Qed.


(** ** Rule set 6 *)

Lemma fullmatch_word (inv : string) :
  all_word inv = true -> inv <> "" ->
  Re.fullmatch name_pattern inv = Some [].
Proof.
  intros Hw Hne. unfold Re.fullmatch, name_pattern. cbn [Re.exec].
  rewrite repeat_span by reflexivity.
  change (Re.mem Re.Word) with Re.is_word.
  pose proof (span_word_app inv "" Hw I) as Hs.
  rewrite append_nil_r in Hs. rewrite Hs. cbn [fst snd].
  destruct inv; [congruence|reflexivity].
Qed.

(** C2: an investigation of the grouping whose bundle holds exactly one raw
    file, one tidy file, one sidecar file and no or one source file gets no
    error from the per-investigation structural rules; the name rule passes
    because the name was captured by one of the patterns. *)
Theorem complete_bundle_no_structure_errors
    (listing : list (string * node)) (inv : string) (fd : files_dict) :
  Dict.get inv (grouping listing) = Some fd ->
  length (raw_files fd) = 1 ->
  length (tidy_files fd) = 1 ->
  length (sidecar_files fd) = 1 ->
  length (source_files fd) <= 1 ->
  structure_errors inv fd = [].
Proof.
  intros Hg Hr Ht Hs Hsrc. unfold structure_errors.
  assert (Hin : In inv (Dict.keys (grouping listing))).
  { apply get_In in Hg. apply (in_map fst) in Hg. exact Hg. }
  destruct (grouping_names _ _ Hin) as [Hw Hne].
  rewrite (fullmatch_word _ Hw Hne), Hr, Ht, Hs. cbn [Nat.eqb app].
  destruct (Nat.ltb_spec 1 (length (source_files fd))); [lia|reflexivity].
Qed.

Lemma complete_bundle_witness :
  structure_errors "a"
    {| source_files := []; raw_files := ["a-raw.csv"];
       tidy_files := ["a.tsv"]; sidecar_files := ["a.yml"] |} = [].
Proof.
  apply (complete_bundle_no_structure_errors
           [("a-raw.csv", File ""); ("a.tsv", File ""); ("a.yml", File "")]);
    [reflexivity|reflexivity|reflexivity|reflexivity|simpl; lia].
Defined.

(** ** A requested investigation that is not there *)

(** No error of rules 1, 3 and 4 starts like the errors about an
    investigation. *)
Lemma root_errors_head (p : project) (listing : list (string * node))
    (e : string) :
  In e (root_errors p listing) ->
  exists c rest,
    e = String c rest /\ c <> "I"%char /\ c <> "T"%char /\ c <> "E"%char.
Proof.
  unfold root_errors. intro H.
  apply in_app_or in H as [H|H]; [|apply in_app_or in H as [H|H]].
  - destruct (readme p); [destruct H|]. destruct H as [<-|[]].
    eexists _, _. split; [reflexivity|repeat split; discriminate].
  - apply in_flat_map in H as ([item n] & _ & H). unfold subfolder_step in H.
    destruct (isdir (snd (item, n))); [|destruct H]. destruct H as [<-|[]].
    eexists _, _. split; [reflexivity|repeat split; discriminate].
  - apply in_flat_map in H as ([file n] & _ & H). unfold scan_step in H.
    destruct (always_ignored file); [destruct H|].
    destruct (isfile n); cbn [negb snd] in H; [|destruct H].
    destruct (first_match file patterns) as [[ft0 inv0]|]; cbn [snd] in H;
      [destruct H|].
    destruct H as [<-|[]].
    eexists _, _. split; [reflexivity|repeat split; discriminate].
Qed.



(** ** Reading the header line *)


Lemma between_bounds (lo hi : nat) (b : ascii) :
  Re.between lo hi b = true -> lo <= nat_of_ascii b <= hi.
Proof.
  unfold Re.between. intro H. apply andb_true_iff in H as [H1 H2].
  apply Nat.leb_le in H1, H2. lia.
Qed.

Lemma step_wf (st st1 : state) (b : ascii) :
  wf_state st -> step st b = Some st1 ->
  wf_state st1 /\ (st1 <> Start -> 128 <= nat_of_ascii b).
Proof.
  intros Hwf H. destruct st as [|lo hi more]; cbn [step] in H.
  - repeat match type of H with
           | (if Re.between ?l ?h b then _ else _) = _ =>
               let E := fresh "E" in
               destruct (Re.between l h b) eqn:E;
               [apply between_bounds in E; injection H as <-;
                split; [simpl; lia|intros; try congruence; lia]|]
           end.
    discriminate.
  - destruct (Re.between lo hi b) eqn:E; [|discriminate].
    apply between_bounds in E. simpl in Hwf. injection H as <-.
    destruct more; split; simpl; try lia; intros; lia.
Qed.

Lemma nonascii_app (a b : string) :
  nonascii (a ++ b) = nonascii a && nonascii b.
Proof. induction a; simpl; [reflexivity|]. now rewrite IHa, andb_assoc. Qed.

(** The decoder fails where the automaton does; otherwise it hands on the
    bytes it was given, in order, but for an unfinished last sequence. *)
Lemma decode_spec (chunk : string) (st : state) (pending : string) :
  wf_state st -> nonascii pending = true ->
  match decode st pending chunk with
  | None => run st chunk = None
  | Some (text, st1, pending') =>
      run st chunk = Some st1 /\ pending ++ chunk = text ++ pending'
      /\ nonascii pending' = true /\ wf_state st1
  end.
Proof.
  revert st pending; induction chunk as [|b chunk IH]; intros st pending Hwf Hp.
  - simpl. now rewrite append_nil_r.
  - cbn [decode run].
    destruct (step st b) as [st1|] eqn:Hs; [|reflexivity].
    destruct (step_wf _ _ _ Hwf Hs) as [Hwf1 Hb].
    destruct st1 as [|lo hi more].
    + specialize (IH Start "" I eq_refl).
      destruct (decode Start "" chunk) as [[[text st2] pending']|];
        [|exact IH].
      destruct IH as (Hr & He & Hn & Hw). repeat split; trivial.
      simpl in He. rewrite He. now rewrite append_assoc.
    + assert (Hp1 : nonascii (pending ++ String b "") = true).
      { rewrite nonascii_app, Hp. cbn [nonascii andb]. rewrite andb_true_r.
        apply Nat.leb_le, Hb. discriminate. }
      specialize (IH (Cont lo hi more) _ Hwf1 Hp1).
      destruct (decode (Cont lo hi more) (pending ++ String b "") chunk)
        as [[[text st2] pending']|]; [|exact IH].
      destruct IH as (Hr & He & Hn & Hw). repeat split; trivial.
      now rewrite <- He, append_assoc.
Qed.












Lemma take_drop (n : nat) (s : string) : take n s ++ drop n s = s.
Proof.
  revert s; induction n as [|n IH]; intros [|c s]; simpl; trivial.
  now rewrite IH.
Qed.

Lemma length_drop (n : nat) (s : string) :
  String.length (drop n s) = String.length s - n.
Proof.
  revert s; induction n as [|n IH]; intros [|c s]; simpl; trivial.
Qed.



(** ** Telling the messages apart *)

Lemma srev_app (a b : string) : srev (a ++ b) = srev b ++ srev a.
Proof.
  induction a as [|c a IH]; simpl.
  - now rewrite append_nil_r.
  - now rewrite IH, append_assoc.
Qed.

Lemma append_inv_head (a x y : string) : a ++ x = a ++ y -> x = y.
Proof. induction a; simpl; intro H; [exact H|]. injection H. auto. Qed.

Lemma append_inv_tail (x y b : string) : x ++ b = y ++ b -> x = y.
Proof.
  intro H. apply (f_equal srev) in H. rewrite !srev_app in H.
  apply append_inv_head in H.
  assert (R : forall s, srev (srev s) = s).
  { induction s as [|c s IH]; simpl; [reflexivity|].
    now rewrite srev_app, IH. }
  rewrite <- (R x), <- (R y). now f_equal.
Qed.




Lemma structure_errors_head (inv : string) (fd : files_dict) (e : string) :
  In e (structure_errors inv fd) -> head e = Some "I"%char.
Proof.
  unfold structure_errors. intro H.
  repeat (apply in_app_or in H as [H|H]);
    match type of H with
    | In _ (match ?x with _ => _ end) => destruct x
    | In _ (if ?x then _ else _) => destruct x
    end;
    (destruct H as [<-|[]] || destruct H); reflexivity.
Qed.

Lemma sidecar_errors_head (yaml : option (string -> string + pyval))
    (listing : list (string * node)) (fd : files_dict) (e : string) :
  In e (sidecar_errors yaml listing fd) ->
  head e = Some "S"%char \/ head e = Some "P"%char.
Proof.
  unfold sidecar_errors. intro H.
  destruct (sidecar_files fd) as [|f l]; [destruct H|].
  destruct yaml as [safe_load|]; [|destruct H as [<-|[]]; now right].
  destruct (open_ listing f) as [err|content].
  - destruct H as [<-|[]]. now left.
  - destruct (safe_load content); [|destruct H].
    destruct H as [<-|[]]. now left.
Qed.


Lemma target_errors_head (target_inv : option string)
    (invs : Dict.t files_dict) (e : string) :
  In e (snd (filter_target target_inv (invs, []))) -> head e = Some "I"%char.
Proof.
  unfold filter_target. destruct (requested target_inv) as [t|];
    [|intros []].
  destruct (Dict.get t invs); [intros []|]. intros [<-|[]]. reflexivity.
Qed.


(** ** The header of the tidy file *)




(** ** Runs that only write to the error stream *)

Lemma log_nil (w : world) : log w [] = w.
Proof. destruct w. unfold log. cbn. now rewrite app_nil_r. Qed.

Lemma log_log (w : world) (a b : list string) :
  log (log w a) b = log w (a ++ b).
Proof. unfold log. cbn. now rewrite app_assoc. Qed.

Lemma logging_ret {A : Type} (a : A) : logging (ret a).
Proof. intro w. unfold outcome, ret. cbn. now rewrite log_nil. Qed.

Lemma logging_exit {A : Type} (msg : string) : logging (@exit A msg).
Proof. intro w. unfold outcome, exit. cbn. now rewrite log_nil. Qed.

Lemma logging_warn (msg : string) : logging (warn msg).
Proof. intro w. reflexivity. Qed.

Lemma logging_bind {A B : Type} (m : M A) (f : A -> M B) :
  logging m -> (forall a, logging (f a)) -> logging (bind m f).
Proof.
  intros Hm Hf w. unfold outcome, bind.
  rewrite (Hm w), (Hm blank).
  destruct (fst (outcome m)) as [a|e]; [|reflexivity].
  rewrite (Hf a (log w _)), (Hf a (log blank _)). cbn [fst snd].
  now rewrite log_log.
Qed.

Lemma logging_for_each {A B : Type} (f : A -> M B) (l : list A) :
  (forall a, logging (f a)) -> logging (for_each f l).
Proof.
  intro Hf. induction l as [|a l IH]; cbn [for_each].
  - apply logging_ret.
  - apply logging_bind; [apply Hf|]. intro b.
    apply logging_bind; [exact IH|]. intro bs. apply logging_ret.
Qed.

(** The result of a bind, from the results of its parts. *)
Lemma outcome_bind {A B : Type} (m : M A) (f : A -> M B) :
  logging m -> (forall a, logging (f a)) ->
  outcome (bind m f) =
  match fst (outcome m) with
  | Ok a => (fst (outcome (f a)),
             (snd (outcome m) ++ snd (outcome (f a)))%list)
  | Exit e => (Exit e, snd (outcome m))
  end.
Proof.
  intros Hm Hf. unfold outcome at 1, bind. rewrite (Hm blank).
  destruct (fst (outcome m)) as [a|e]; [|reflexivity].
  rewrite (Hf a). reflexivity.
Qed.

Section Package.

Variable yaml : option (string -> string + pyval).
Variable md5 : hashlib_md5.

Lemma logging_load_field (item : string * pyval) : logging (load_field item).
Proof.
  destruct item as [k v]. unfold load_field.
  destruct v; try apply logging_ret;
    (apply logging_bind; [apply logging_warn|intro; apply logging_ret]).
Qed.

Lemma logging_load_yaml_fields (listing : list (string * node))
    (yml_file file : string) :
  logging (load_yaml_fields yaml listing yml_file file).
Proof.
  unfold load_yaml_fields.
  destruct (try_load yaml listing file) as [e|v]; [apply logging_exit|].
  destruct v; try apply logging_exit.
  apply logging_bind; [|intro; apply logging_ret].
  apply logging_for_each, logging_load_field.
Qed.

Lemma logging_compute_file_info (listing : list (string * node))
    (tsv_path file : string) :
  logging (compute_file_info md5 listing tsv_path file).
Proof.
  unfold compute_file_info.
  destruct (open_ listing file); [apply logging_exit|apply logging_ret].
Qed.

Lemma logging_tidy_info (data_path : string) (listing : list (string * node))
    (inv : string) :
  logging (tidy_info md5 data_path listing inv).
Proof.
  unfold tidy_info.
  destruct (match Dict.get (inv ++ ".tsv") listing with
            | Some n => isfile n
            | None => false
            end).
  - apply logging_compute_file_info.
  - apply logging_bind; [apply logging_warn|intro; apply logging_ret].
Qed.

Lemma logging_package_one (data_path : string)
    (listing : list (string * node)) (created : string)
    (item : string * string) :
  logging (package_one yaml md5 data_path listing created item).
Proof.
  destruct item as [inv file]. unfold package_one.
  apply logging_bind; [apply logging_tidy_info|]. intro info.
  apply logging_bind; [apply logging_load_yaml_fields|]. intro fields.
  apply logging_ret.
Qed.

Lemma logging_select_target (target_inv : option string)
    (investigations : Dict.t string) :
  logging (select_target target_inv investigations).
Proof.
  unfold select_target. destruct (requested target_inv) as [t|];
    [|apply logging_ret].
  destruct (Dict.get t investigations); [apply logging_ret|apply logging_exit].
Qed.

(** *** The schema loader *)

Lemma outcome_load_fields (items : list (string * pyval)) :
  outcome (fields <- for_each load_field items ;; ret (concat fields))
  = (Ok (fields_of items), field_warnings items).
Proof.
  assert (G : outcome (for_each load_field items)
              = (Ok (map (fun item =>
                            match snd item with
                            | PDict attrs =>
                                [PDict (Dict.update
                                          [("name", PStr (fst item))] attrs)]
                            | _ => []
                            end) items),
                 field_warnings items)).
  { induction items as [|[k v] items IH]; [reflexivity|].
    cbn [for_each].
    rewrite outcome_bind;
      [|apply logging_load_field
       |intro; apply logging_bind;
        [apply logging_for_each, logging_load_field|intro; apply logging_ret]].
    assert (Hlf : outcome (load_field (k, v))
                  = (Ok match v with
                        | PDict attrs =>
                            [PDict (Dict.update [("name", PStr k)] attrs)]
                        | _ => []
                        end,
                     match v with
                     | PDict _ => []
                     | _ => [skipped_msg k]
                     end)) by (destruct v; reflexivity).
    rewrite Hlf. cbn [fst snd].
    rewrite outcome_bind;
      [|apply logging_for_each, logging_load_field|intro; apply logging_ret].
    rewrite IH. cbn [fst snd map flat_map]. unfold outcome, ret.
    cbn [fst snd stderr blank]. now rewrite app_nil_r. }
  rewrite outcome_bind;
    [|apply logging_for_each, logging_load_field|intro; apply logging_ret].
  rewrite G. cbn [fst snd]. unfold fields_of. rewrite flat_map_concat_map.
  unfold outcome, ret. cbn. now rewrite app_nil_r.
Qed.

(** What the loader does, case by case of the [try] block. *)
Lemma outcome_load_yaml_fields (listing : list (string * node))
    (yml_file file : string) :
  outcome (load_yaml_fields yaml listing yml_file file) =
  match try_load yaml listing file with
  | inl e => (Exit ("Error loading YAML file " ++ yml_file ++ ": " ++ e), [])
  | inr (PDict items) => (Ok (fields_of items), field_warnings items)
  | inr _ =>
      (Exit ("Error: Expected a YAML mapping at the root of " ++ yml_file), [])
  end.
Proof.
  unfold load_yaml_fields.
  destruct (try_load yaml listing file) as [e|v]; [reflexivity|].
  destruct v; try reflexivity. apply outcome_load_fields.
Qed.

(** A run of the loader in any world. *)
Lemma load_yaml_fields_run (listing : list (string * node))
    (yml_file file : string) (w : world) :
  load_yaml_fields yaml listing yml_file file w =
  match try_load yaml listing file with
  | inl e => (Exit ("Error loading YAML file " ++ yml_file ++ ": " ++ e), w)
  | inr (PDict items) => (Ok (fields_of items), log w (field_warnings items))
  | inr _ =>
      (Exit ("Error: Expected a YAML mapping at the root of " ++ yml_file), w)
  end.
Proof.
  rewrite (logging_load_yaml_fields listing yml_file file w).
  rewrite outcome_load_yaml_fields.
  destruct (try_load yaml listing file) as [e|v]; cbn [fst snd];
    [now rewrite log_nil|].
  destruct v; cbn [fst snd]; now rewrite ?log_nil.
Qed.

Lemma fields_of_app (a b : list (string * pyval)) :
  fields_of (a ++ b) = (fields_of a ++ fields_of b)%list.
Proof. apply flat_map_app. Qed.

Lemma field_warnings_app (a b : list (string * pyval)) :
  field_warnings (a ++ b) = (field_warnings a ++ field_warnings b)%list.
Proof. apply flat_map_app. Qed.

(** C7: the loader ends the run exactly when the [try] block raises (the
    sidecar does not open or does not parse) or the parsed root is not a
    mapping.  On a mapping it returns, and a key whose value is not a
    mapping is skipped: the warning naming it is printed in its turn and
    the field records are those of the mapping without that key. *)
Theorem schema_loader_fatal_iff (listing : list (string * node))
    (yml_file file : string) (w : world) :
  ((exists msg,
       fst (load_yaml_fields yaml listing yml_file file w) = Exit msg)
   <-> ((exists e, try_load yaml listing file = inl e)
        \/ (exists v, try_load yaml listing file = inr v
                      /\ forall items, v <> PDict items)))
  /\ (forall before k v after,
         try_load yaml listing file
           = inr (PDict (before ++ (k, v) :: after)) ->
         (forall attrs, v <> PDict attrs) ->
         load_yaml_fields yaml listing yml_file file w
           = (Ok (fields_of (before ++ after)),
              log w (field_warnings before ++ skipped_msg k
                       :: field_warnings after))).
Proof.
  rewrite load_yaml_fields_run. split.
  - destruct (try_load yaml listing file) as [e|v].
    + split; [intros _; left; now exists e|intros _; now eexists].
    + destruct v; cbn [fst];
        try (split; [intros _; right; eexists; split;
                       [reflexivity|discriminate]
                    |intros _; now eexists]).
      split; [intros [msg H]; discriminate|].
      intros [[e H]|(v & H & Hv)]; [discriminate|].
      injection H as <-. now destruct (Hv items).
  - intros before k v after -> Hv.
    rewrite !fields_of_app, field_warnings_app.
    unfold fields_of at 2, field_warnings at 2. cbn [flat_map fst snd].
    fold (fields_of after). fold (field_warnings after).
    destruct v; try reflexivity. now destruct (Hv items).
Qed.

(** *** The field records *)

(** Setting a key that is not there adds it last. *)
Lemma set_fresh {V : Type} (k : string) (v : V) (d : Dict.t V) :
  ~ In k (Dict.keys d) -> Dict.set k v d = (d ++ [(k, v)])%list.
Proof.
  induction d as [|[k0 v0] d IH]; simpl; [reflexivity|]. intro H.
  destruct (String.eqb_spec k0 k); [tauto|]. rewrite IH; tauto.
Qed.

Lemma update_name (attrs acc : Dict.t pyval) (y : pyval) :
  NoDup (Dict.keys attrs) ->
  (forall k, In k (Dict.keys attrs) -> ~ In k (Dict.keys acc)) ->
  Dict.update (("name", y) :: acc) attrs
  = (("name", match Dict.get "name" attrs with Some v => v | None => y end)
     :: acc ++ filter (fun kv => negb (String.eqb (fst kv) "name")) attrs)
      %list.
Proof.
  unfold Dict.update. revert acc y.
  induction attrs as [|[k v] attrs IH]; intros acc y Hnd Hacc.
  - simpl. now rewrite app_nil_r.
  - inversion Hnd as [|? ? Hk Hnd']; subst.
    cbn [fold_left fst snd Dict.set Dict.get filter].
    rewrite (String.eqb_sym k "name").
    destruct (String.eqb_spec "name" k) as [<-|Hne]; cbn [negb].
    + rewrite IH; trivial.
      * assert (Hn : Dict.get "name" attrs = None)
          by now apply get_None_keys.
        now rewrite Hn.
      * intros k' Hk'. apply Hacc. now right.
    + rewrite set_fresh by (apply Hacc; now left).
      rewrite IH; trivial.
      * now rewrite <- app_assoc.
      * intros k' Hk' Hin. unfold Dict.keys in Hin. rewrite map_app in Hin.
        apply in_app_or in Hin as [Hin|[<-|[]]]; [|contradiction].
        apply (Hacc k'); [now right|exact Hin].
Qed.

(** C3: for a sidecar whose top-level values are all mappings the loader
    returns, without a warning, one field record per key in declaration
    order; each record starts with [name], which holds the key unless the
    field's own mapping declares a [name] attribute, whose value then
    replaces it, and goes on with the other attributes as declared. *)
Theorem schema_loader_fields (listing : list (string * node))
    (yml_file file : string) (w : world)
    (decl : list (string * Dict.t pyval)) :
  try_load yaml listing file
    = inr (PDict (map (fun ka => (fst ka, PDict (snd ka))) decl)) ->
  (forall k attrs, In (k, attrs) decl -> NoDup (Dict.keys attrs)) ->
  load_yaml_fields yaml listing yml_file file w
    = (Ok (map (fun ka => PDict (field_record (fst ka) (snd ka))) decl), w).
Proof.
  intros Hload Hwf. rewrite load_yaml_fields_run, Hload.
  assert (G : fields_of (map (fun ka => (fst ka, PDict (snd ka))) decl)
              = map (fun ka => PDict (field_record (fst ka) (snd ka))) decl
              /\ field_warnings
                   (map (fun ka => (fst ka, PDict (snd ka))) decl) = []).
  { clear Hload. induction decl as [|[k attrs] decl IH]; [split; reflexivity|].
    destruct IH as [IHf IHw]; [intros; eapply Hwf; right; eauto|].
    cbn [map fst snd]. unfold fields_of, field_warnings in *.
    cbn [flat_map fst snd app]. rewrite IHf, IHw. split; [|reflexivity].
    f_equal. f_equal. unfold field_record.
    rewrite (update_name attrs [] (PStr k)); [reflexivity| |intros ? _ []].
    apply (Hwf k attrs). now left. }
  destruct G as [-> ->]. now rewrite log_nil.
Qed.

End Package.

Lemma schema_loader_fields_witness :
  load_yaml_fields example_yaml [("inv.yml", File "")]
    "/p/data/inv.yml" "inv.yml" blank
  = (Ok [PDict [("name", PStr "col_a"); ("type", PStr "string")];
         PDict [("name", PStr "col_b"); ("type", PStr "integer")]],
     blank).
Proof.
  apply (schema_loader_fields example_yaml [("inv.yml", File "")]
           "/p/data/inv.yml" "inv.yml" blank example_sidecar).
  - reflexivity.
  - intros k attrs [H|[H|[]]]; injection H as <- <-;
      repeat constructor; simpl; tauto.
Defined.

Lemma schema_loader_fatal_witness :
  load_yaml_fields
    (Some (fun _ => inr (PDict [("col_a", PDict [("type", PStr "string")]);
                                ("note", PStr "free text")])))
    [("inv.yml", File "")] "/p/data/inv.yml" "inv.yml" blank
  = (Ok [PDict [("name", PStr "col_a"); ("type", PStr "string")]],
     log blank [skipped_msg "note"]).
Proof.
  apply (proj2 (schema_loader_fatal_iff _ [("inv.yml", File "")]
                  "/p/data/inv.yml" "inv.yml" blank)
           [("col_a", PDict [("type", PStr "string")])]
           "note" (PStr "free text") []);
    [reflexivity|discriminate].
Defined.

(** ** Package runs *)

Lemma outcome_for_each {A B : Type} (f : A -> M B) (l : list A) :
  (forall a, logging (f a)) ->
  outcome (for_each f l) = collect (map (fun a => outcome (f a)) l).
Proof.
  intro Hf. induction l as [|a l IH]; [reflexivity|].
  cbn [for_each map collect].
  rewrite outcome_bind;
    [|apply Hf
     |intro; apply logging_bind;
      [now apply logging_for_each|intro; apply logging_ret]].
  destruct (outcome (f a)) as [[b|e] m] eqn:Ho; cbn [fst snd]; [|reflexivity].
  rewrite outcome_bind;
    [|now apply logging_for_each|intro; apply logging_ret].
  rewrite IH. destruct (collect _) as [[bs|e] m']; cbn [fst snd].
  - unfold outcome, ret. cbn. now rewrite app_nil_r.
  - reflexivity.
Qed.

(** A loop that goes through has one result per round, in order, and the
    messages of all rounds. *)
Lemma collect_ok {B : Type} (os : list (result B * list string))
    (bs : list B) (msgs : list string) :
  collect os = (Ok bs, msgs) ->
  Forall2 (fun o b => fst o = Ok b) os bs /\ msgs = flat_map snd os.
Proof.
  revert bs msgs; induction os as [|[[b|e] m] os IH]; intros bs msgs H;
    cbn [collect] in H.
  - injection H as <- <-. split; [constructor|reflexivity].
  - destruct (collect os) as [[bs'|e] m']; [|discriminate].
    injection H as <- <-. destruct (IH bs' m' eq_refl) as [HF ->].
    split; [constructor; [reflexivity|exact HF]|reflexivity].
  - discriminate.
Qed.

Lemma collect_all_ok {B : Type} (os : list (result B * list string)) :
  (forall o, In o os -> exists b, fst o = Ok b) ->
  exists bs, collect os = (Ok bs, flat_map snd os).
Proof.
  induction os as [|[r m] os IH]; intro H; [now exists []|].
  destruct (H (r, m)) as [b Hb]; [now left|]. cbn [fst] in Hb. subst r.
  destruct IH as [bs Hbs]; [intros; apply H; now right|].
  exists (b :: bs). cbn [collect flat_map snd]. now rewrite Hbs.
Qed.

Section Runs.

Variable yaml : option (string -> string + pyval).
Variable md5 : hashlib_md5.

Lemma outcome_tidy_info (data_path : string) (listing : list (string * node))
    (inv : string) :
  outcome (tidy_info md5 data_path listing inv) =
  match Dict.get (inv ++ ".tsv") listing with
  | Some (File content) => (Ok (String.length content, digest md5 content), [])
  | Some (Unreadable e) =>
      (Exit ("Error computing md5 for "
               ++ Path.join data_path (inv ++ ".tsv") ++ ": " ++ e), [])
  | _ => (Ok (0, EmptyString), [tsv_warning data_path inv])
  end.
Proof.
  unfold tidy_info, compute_file_info, open_.
  destruct (Dict.get (inv ++ ".tsv") listing) as [[| | |]|]; reflexivity.
Qed.

Lemma outcome_package_one (data_path : string)
    (listing : list (string * node)) (created inv file : string) :
  outcome (package_one yaml md5 data_path listing created (inv, file)) =
  match outcome (tidy_info md5 data_path listing inv) with
  | (Exit e, m) => (Exit e, m)
  | (Ok info, m) =>
      match outcome (load_yaml_fields yaml listing
                       (Path.join data_path file) file) with
      | (Exit e, m') => (Exit e, (m ++ m')%list)
      | (Ok fields, m') =>
          (Ok (resource inv (fst info) (snd info) fields created),
           (m ++ m')%list)
      end
  end.
Proof.
  unfold package_one.
  rewrite outcome_bind;
    [|apply logging_tidy_info
     |intro; apply logging_bind;
      [apply logging_load_yaml_fields|intro; apply logging_ret]].
  destruct (outcome (tidy_info md5 data_path listing inv)) as [[info|e] m];
    cbn [fst snd]; [|reflexivity].
  rewrite outcome_bind;
    [|apply logging_load_yaml_fields|intro; apply logging_ret].
  destruct (outcome (load_yaml_fields yaml listing _ file)) as [[fields|e] m'];
    cbn [fst snd]; [|reflexivity].
  unfold outcome, ret. cbn. now rewrite app_nil_r.
Qed.

Lemma select_target_run (target_inv : option string)
    (listing : list (string * node)) (w : world) :
  select_target target_inv (discovered listing) w =
  match selected target_inv listing with
  | Some sel => (Ok sel, w)
  | None => (Exit (no_sidecar_msg target_inv), w)
  end.
Proof.
  unfold select_target, selected, no_sidecar_msg.
  destruct (requested target_inv) as [t|]; [|reflexivity].
  destruct (Dict.get t (discovered listing)); reflexivity.
Qed.

(** A package run, phase by phase. *)
Lemma package_run (target_inv : option string) (w : world)
    (listing : list (string * node)) :
  data (cwd w) = Some listing ->
  package_investigations yaml md5 target_inv w =
  match selected target_inv listing with
  | None => (Exit (no_sidecar_msg target_inv), w)
  | Some sel =>
      match rounds yaml md5 (data_path_of w) listing (created_of w) sel with
      | (Exit e, msgs) => (Exit e, stopped w msgs)
      | (Ok resources, msgs) =>
          match write_error w with
          | Some e =>
              (Exit ("Error writing datapackage.json: " ++ e), stopped w msgs)
          | None => (Ok tt, written w msgs resources)
          end
      end
  end.
Proof.
  intro Hd. unfold package_investigations. rewrite Hd.
  fold (discovered listing). unfold bind at 1.
  rewrite select_target_run.
  destruct (selected target_inv listing) as [sel|]; [|reflexivity].
  unfold bind at 1. unfold utcnow at 1. unfold bind at 1.
  rewrite (logging_for_each _ sel (logging_package_one yaml md5 _ _ _)).
  rewrite outcome_for_each by apply logging_package_one.
  cbn [cwd utc ticks].
  fold (data_path_of w). fold (created_of w).
  fold (rounds yaml md5 (data_path_of w) listing (created_of w) sel).
  destruct (rounds yaml md5 (data_path_of w) listing (created_of w) sel)
    as [[resources|e] msgs]; cbn [fst snd]; [|reflexivity].
  unfold bind, dump, log. cbn [write_error].
  destruct (write_error w) as [e|] eqn:Hw; [unfold exit, stopped; now rewrite Hw|].
  unfold print, written, package_name_of, report_msg. cbn. now rewrite Hw.
Qed.

(** A run that goes through. *)
Lemma package_ok_inv (target_inv : option string) (w w' : world) :
  package_investigations yaml md5 target_inv w = (Ok tt, w') ->
  exists listing sel resources msgs,
    data (cwd w) = Some listing
    /\ selected target_inv listing = Some sel
    /\ rounds yaml md5 (data_path_of w) listing (created_of w) sel
       = (Ok resources, msgs)
    /\ write_error w = None
    /\ w' = written w msgs resources.
Proof.
  destruct (data (cwd w)) as [listing|] eqn:Hd.
  - rewrite (package_run _ _ _ Hd).
    destruct (selected target_inv listing) as [sel|] eqn:Hs; [|discriminate].
    destruct (rounds yaml md5 _ listing _ sel) as [[resources|e] msgs] eqn:Hr;
      [|discriminate].
    destruct (write_error w) eqn:Hw; [discriminate|].
    intro H. injection H as <-. now exists listing, sel, resources, msgs.
  - unfold package_investigations. rewrite Hd. discriminate.
Qed.

Lemma Forall2_map_In {A B C : Type} (R : B -> C -> Prop) (f : A -> B)
    (l : list A) (cs : list C) (a : A) :
  Forall2 R (map f l) cs -> In a l -> exists c, In c cs /\ R (f a) c.
Proof.
  revert cs; induction l as [|x l IH]; intros cs HF Hin; [destruct Hin|].
  inversion HF as [|? c ? cs' Hx Hrest]; subst.
  destruct Hin as [->|Hin].
  - exists c. split; [now left|exact Hx].
  - destruct (IH cs' Hrest Hin) as (c' & Hc' & HR).
    exists c'. split; [now right|exact HR].
Qed.


(** The descriptor a round builds. *)
Lemma round_ok (data_path : string) (listing : list (string * node))
    (created inv file : string) (r : pyval) :
  fst (outcome (package_one yaml md5 data_path listing created (inv, file)))
    = Ok r ->
  exists info fields m m',
    outcome (tidy_info md5 data_path listing inv) = (Ok info, m)
    /\ outcome (load_yaml_fields yaml listing (Path.join data_path file) file)
       = (Ok fields, m')
    /\ r = resource inv (fst info) (snd info) fields created
    /\ snd (outcome (package_one yaml md5 data_path listing created
                       (inv, file))) = (m ++ m')%list.
Proof.
  rewrite outcome_package_one.
  destruct (outcome (tidy_info md5 data_path listing inv)) as [[info|e] m];
    [|discriminate].
  destruct (outcome (load_yaml_fields yaml listing _ file))
    as [[fields|e] m']; [|discriminate].
  cbn [fst snd]. intro H. injection H as <-.
  now exists info, fields, m, m'.
Qed.

Lemma tidy_absent_info (data_path : string) (listing : list (string * node))
    (inv : string) :
  tidy_absent listing inv ->
  outcome (tidy_info md5 data_path listing inv)
  = (Ok (0, EmptyString), [tsv_warning data_path inv]).
Proof.
  intro Ha. rewrite outcome_tidy_info. unfold tidy_absent in Ha.
  destruct (Dict.get (inv ++ ".tsv") listing) as [[| | |]|]; try reflexivity;
    now specialize (Ha _ eq_refl).
Qed.

(** C6: an investigation whose tidy file is not there does not end the
    run.  The step that looks for the file prints the warning naming the
    expected path and goes on with size 0 and an empty hash, in any world;
    and a run whose sidecars all load, whose tidy files that are there can
    be read and whose output can be written completes, with that warning on
    the error stream and, for that investigation, a descriptor whose
    [bytes] is 0 and whose [hash] is empty. *)
Theorem missing_tidy_placeholder (listing : list (string * node))
    (inv : string) :
  tidy_absent listing inv ->
  (forall data_path w,
      tidy_info md5 data_path listing inv w
      = (Ok (0, EmptyString), log w [tsv_warning data_path inv]))
  /\ (forall target_inv w sel file,
        data (cwd w) = Some listing ->
        selected target_inv listing = Some sel ->
        In (inv, file) sel ->
        write_error w = None ->
        (forall inv' file', In (inv', file') sel ->
           exists items, try_load yaml listing file' = inr (PDict items)) ->
        (forall inv' file' e, In (inv', file') sel ->
           Dict.get (inv' ++ ".tsv") listing <> Some (Unreadable e)) ->
        exists resources msgs,
          package_investigations yaml md5 target_inv w
            = (Ok tt, written w msgs resources)
          /\ In (tsv_warning (data_path_of w) inv) msgs
          /\ exists r, In r resources
                       /\ field "name" r = Some (PStr inv)
                       /\ field "bytes" r = Some (PInt 0%Z)
                       /\ field "hash" r = Some (PStr EmptyString)).
Proof.
  intro Habs. split.
  { intros data_path w. rewrite (logging_tidy_info md5 data_path listing inv w).
    now rewrite tidy_absent_info. }
  intros target_inv w sel file Hd Hsel Hin Hw Hload Hread.
  rewrite (package_run _ _ _ Hd), Hsel. unfold rounds.
  set (round := fun item =>
         outcome (package_one yaml md5 (data_path_of w) listing
                    (created_of w) item)).
  destruct (collect_all_ok (map round sel)) as [resources Hc].
  { intros o Ho. apply in_map_iff in Ho as ([inv' file'] & <- & Hin').
    unfold round. rewrite outcome_package_one, outcome_tidy_info.
    rewrite outcome_load_yaml_fields.
    destruct (Hload inv' file' Hin') as [items ->].
    destruct (Dict.get (inv' ++ ".tsv") listing) as [[| |e|]|] eqn:Hg;
      try (eexists; reflexivity).
    now destruct (Hread inv' file' e Hin'). }
  rewrite Hc, Hw. exists resources, (flat_map snd (map round sel)).
  split; [reflexivity|].
  destruct (collect_ok _ _ _ Hc) as [HF _].
  destruct (Forall2_map_In _ round sel resources (inv, file) HF Hin)
    as (r & Hr & Hround).
  unfold round in Hround.
  destruct (round_ok _ _ _ _ _ _ Hround) as (info & fields & m & m' & Hi & _
                                              & -> & Hm).
  rewrite (tidy_absent_info _ _ _ Habs) in Hi. injection Hi as <- <-.
  split.
  - apply in_flat_map. exists (round (inv, file)).
    split; [now apply in_map|]. unfold round. rewrite Hm. now left.
  - eexists. split; [exact Hr|]. repeat split.
Qed.



(** *** The time stamp *)



End Runs.









Section Descriptors.

Variable yaml : option (string -> string + pyval).
Variable md5 : hashlib_md5.



End Descriptors.

(** ** Sidecar-driven discovery *)





Lemma discover_step_keys (invs : Dict.t string) (item : string * node)
    (k : string) :
  In k (Dict.keys invs) -> In k (Dict.keys (discover_step invs item)).
Proof.
  intro H. unfold discover_step.
  destruct (Path.endswith (fst item) ".yml"); [|exact H].
  rewrite keys_set. destruct (Dict.get _ invs); [exact H|].
  apply in_or_app. now left.
Qed.

Lemma discovered_keys (listing : list (string * node)) (file : string)
    (n : node) :
  In (file, n) listing -> Path.endswith file ".yml" = true ->
  In (fst (Path.splitext file)) (Dict.keys (discovered listing)).
Proof.
  intros Hin Hyml. unfold discovered.
  assert (G : forall l invs,
             In (fst (Path.splitext file)) (Dict.keys invs)
             \/ In (file, n) l ->
             In (fst (Path.splitext file))
               (Dict.keys (fold_left discover_step l invs))).
  { induction l as [|item l IH]; intros invs [H|H];
      [exact H|destruct H| |]; cbn [fold_left]; apply IH.
    - left. now apply discover_step_keys.
    - destruct H as [->|H]; [left|now right].
      unfold discover_step. cbn [fst]. rewrite Hyml, keys_set.
      destruct (Dict.get _ invs) eqn:E.
      + apply get_In in E. apply (in_map fst) in E. exact E.
      + apply in_or_app. right. now left. }
  apply G. now right.
Qed.

Lemma keys_In {V : Type} (k : string) (d : Dict.t V) :
  In k (Dict.keys d) -> exists v, In (k, v) d.
Proof.
  intro H. apply in_map_iff in H as ([k' v] & <- & H). now exists v.
Qed.


Section Discovery.

Variable yaml : option (string -> string + pyval).
Variable md5 : hashlib_md5.


End Discovery.

(** ** A run on a small project *)

Lemma example_run :
  package_investigations example_yaml example_md5 None example_world
  = (Ok tt, example_after).
Proof. reflexivity. Qed.

Lemma missing_tidy_witness :
  tidy_info example_md5 "/home/u/proj/data" example_listing "my-data"
    example_world
  = (Ok (0, EmptyString),
     log example_world
       [tsv_warning "/home/u/proj/data" "my-data"])
  /\ exists resources msgs,
       package_investigations example_yaml example_md5 None example_world
         = (Ok tt, written example_world msgs resources)
       /\ In (tsv_warning (data_path_of example_world) "my-data") msgs
       /\ exists r, In r resources
                    /\ field "name" r = Some (PStr "my-data")
                    /\ field "bytes" r = Some (PInt 0%Z)
                    /\ field "hash" r = Some (PStr EmptyString).
Proof.
  assert (Habs : tidy_absent example_listing "my-data")
    by (intros n H; discriminate).
  destruct (missing_tidy_placeholder example_yaml example_md5
              example_listing "my-data" Habs) as [Hstep Hrun].
  split; [apply Hstep|].
  apply (Hrun None example_world [("my-data", "my-data.yml")] "my-data.yml").
  - reflexivity.
  - reflexivity.
  - now left.
  - reflexivity.
  - intros inv file [H|[]]. injection H as <- <-. eexists. reflexivity.
  - intros inv file e [H|[]]. injection H as <- <-. discriminate.
Defined.




(** ** The model on small inputs *)

(** A project that follows the convention passes the check. *)
Example check_clean_project :
  check_project_structure example_yaml
    {| project_path := "/home/u/proj"; readme := true;
       data := Some [(".gitignore", File "");
                     ("trial_1-raw.csv", File "a,b");
                     ("trial_1.tsv", File ("a" ++ String tab "b"));
                     ("trial_1.yml", File "");
                     ("trial_1-source.R", File "")] |} None
  = [].
Proof. vm_compute. reflexivity. Qed.

(** Two tidy names of one investigation: the second ends in a newline. *)
Example check_two_tidy_files :
  check_project_structure example_yaml
    {| project_path := "/home/u/proj"; readme := true;
       data := Some [("a-raw.csv", File "");
                     ("a.tsv", File ("x" ++ String tab "y"));
                     ("a.tsv" ++ nl, File "");
                     ("a.yml", File "")] |} (Some "a")
  = [tidy_count_msg "a" 2].
Proof. vm_compute. reflexivity. Qed.

(** A [name] attribute of the field's own mapping replaces the key. *)
Example name_attribute_wins :
  fields_of [("col_a", PDict [("type", PStr "string"); ("name", PStr "x")])]
  = [PDict [("name", PStr "x"); ("type", PStr "string")]].
Proof. reflexivity. Qed.

(** The names [os.path.splitext] leaves whole. *)
Example splitext_leading_dots :
  Path.splitext ".yml" = (".yml", "")
  /\ Path.splitext "..yml" = ("..yml", "")
  /\ Path.splitext ".a.yml" = (".a", ".yml")
  /\ Path.splitext "my-data.yml" = ("my-data", ".yml").
Proof. repeat split. Qed.

(** A carriage return at the very end of a chunk is held back, so the
    next chunk is decoded before the line is returned. *)
Example readline_held_cr :
  readline (replicate 8191 "x"%char ++ String cr (String (ascii_of_nat 255) ""))
  = UnicodeDecodeError.
Proof. vm_compute. reflexivity. Qed.

(** * Further properties of the code *)

(** ** When the check passes *)

Lemma flat_map_nil {A B : Type} (f : A -> list B) (l : list A) :
  flat_map f l = [] <-> forall x, In x l -> f x = [].
Proof.
  induction l as [|a l IH]; cbn [flat_map]; [split; [intros _ x []|trivial]|].
  split.
  - intro H. apply app_eq_nil in H as [Ha Hl].
    intros x [<-|Hx]; [exact Ha|]. now apply IH.
  - intro H. rewrite (H a) by now left.
    apply IH. intros x Hx. apply H. now right.
Qed.

(** The structural rules are silent exactly on a valid name with the
    right counts. *)
Lemma structure_errors_nil (inv : string) (fd : files_dict) :
  structure_errors inv fd = [] <->
  Re.fullmatch name_pattern inv <> None
  /\ length (raw_files fd) = 1 /\ length (tidy_files fd) = 1
  /\ length (sidecar_files fd) = 1 /\ length (source_files fd) <= 1.
Proof.
  unfold structure_errors.
  destruct (Re.fullmatch name_pattern inv) as [m|];
    destruct (Nat.eqb_spec (length (raw_files fd)) 1);
    destruct (Nat.eqb_spec (length (tidy_files fd)) 1);
    destruct (Nat.eqb_spec (length (sidecar_files fd)) 1);
    destruct (Nat.ltb_spec 1 (length (source_files fd)));
    cbn [app]; split; try discriminate; try tauto;
    try (intros (? & ? & ? & ? & ?); (congruence || lia));
    intros _; repeat split; (discriminate || assumption || lia).
Qed.

Lemma tidy_errors_nil (listing : list (string * node)) (fd : files_dict)
    (tidy_file : string) :
  tidy_files fd = [tidy_file] ->
  (tidy_errors listing fd = [] <->
   exists content line,
     open_ listing tidy_file = inr content
     /\ readline content = Line line /\ has_tab line = true).
Proof.
  intro Ht. unfold tidy_errors. rewrite Ht.
  destruct (open_ listing tidy_file) as [e|content].
  - split; [discriminate|]. intros (c & l & H & _). discriminate.
  - destruct (readline content) as [line|] eqn:Hr.
    + destruct (has_tab line) eqn:Htab.
      * split; [intros _; now exists content, line|reflexivity].
      * split; [discriminate|]. intros (c & l & Hc & Hl & Hb).
        injection Hc as <-. rewrite Hr in Hl. injection Hl as <-. congruence.
    + split; [discriminate|]. intros (c & l & Hc & Hl & _).
      injection Hc as <-. congruence.
Qed.

Lemma sidecar_errors_nil (yaml : option (string -> string + pyval))
    (listing : list (string * node)) (fd : files_dict)
    (sidecar_file : string) :
  sidecar_files fd = [sidecar_file] ->
  (sidecar_errors yaml listing fd = [] <->
   exists safe_load content v,
     yaml = Some safe_load /\ open_ listing sidecar_file = inr content
     /\ safe_load content = inr v).
Proof.
  intro Hs. unfold sidecar_errors. rewrite Hs.
  destruct yaml as [safe_load|].
  - destruct (open_ listing sidecar_file) as [e|content].
    + split; [discriminate|]. intros (f & c & v & _ & H & _). discriminate.
    + destruct (safe_load content) as [e|v] eqn:Hv.
      * split; [discriminate|]. intros (f & c & v & Hf & Hc & Hl).
        injection Hf as <-. injection Hc as <-. congruence.
      * split; [intros _; now exists safe_load, content, v|reflexivity].
  - split; [discriminate|]. intros (f & c & v & H & _). discriminate.
Qed.

Lemma length_one {A : Type} (l : list A) :
  length l = 1 <-> exists a, l = [a].
Proof.
  split; [|intros [a ->]; reflexivity].
  destruct l as [|a [|b l]]; try discriminate. intros _. now exists a.
Qed.

(** A bundle of the working set passes rules 6 to 8 exactly when it has
    one raw file, at most one source file, a tidy file whose header reads
    with a tab and a sidecar that parses. *)
Lemma bundle_passes (yaml : option (string -> string + pyval))
    (listing : list (string * node)) (target_inv : option string)
    (inv : string) (fd : files_dict) :
  In (inv, fd) (working_set target_inv listing) ->
  (structure_errors inv fd = [] /\ content_errors yaml listing fd = []
   <-> length (raw_files fd) = 1 /\ length (source_files fd) <= 1
       /\ tidy_passes listing fd /\ sidecar_passes yaml listing fd).
Proof.
  intro Hin. apply working_set_get in Hin.
  assert (Hname : Re.fullmatch name_pattern inv <> None).
  { apply get_In in Hin. apply (in_map fst) in Hin. cbn [fst] in Hin.
    destruct (grouping_names _ _ Hin) as [Hw Hne].
    rewrite (fullmatch_word _ Hw Hne). discriminate. }
  rewrite structure_errors_nil. unfold content_errors, tidy_passes,
    sidecar_passes. split.
  - intros ((_ & Hr & Ht & Hs & Hsrc) & Hc).
    apply app_eq_nil in Hc as [Hct Hcs].
    apply length_one in Ht as [tf Ht]. apply length_one in Hs as [sf Hs].
    apply (tidy_errors_nil _ _ _ Ht) in Hct as (c & l & H1 & H2 & H3).
    apply (sidecar_errors_nil _ _ _ _ Hs) in Hcs as (f & c' & v & H4 & H5 & H6).
    repeat split; trivial.
    + now exists tf, c, l.
    + now exists sf, f, c', v.
  - intros (Hr & Hsrc & (tf & c & l & Ht & H1 & H2 & H3)
            & (sf & f & c' & v & Hs & H4 & H5 & H6)).
    split.
    + repeat split; trivial; [now rewrite Ht|now rewrite Hs].
    + rewrite (proj2 (tidy_errors_nil _ _ _ Ht)) by now exists c, l.
      rewrite (proj2 (sidecar_errors_nil _ _ _ _ Hs)) by now exists f, c', v.
      reflexivity.
Qed.

Lemma scan_silent (file : string) (n : node) :
  snd (scan_step ([], []) (file, n)) = [] <->
  (isfile n = true -> classify file <> Unmatched).
Proof.
  unfold scan_step, classify.
  destruct (always_ignored file); [split; [discriminate|reflexivity]|].
  destruct (isfile n); cbn [negb snd];
    [|split; [discriminate|reflexivity]].
  destruct (first_match file patterns) as [[ft inv]|]; cbn [snd app].
  - split; [discriminate|reflexivity].
  - split; [discriminate|]. intro H. now destruct (H eq_refl).
Qed.

Lemma target_silent (target_inv : option string) (invs : Dict.t files_dict) :
  snd (filter_target target_inv (invs, [])) = [] <->
  (forall t, requested target_inv = Some t -> In t (Dict.keys invs)).
Proof.
  unfold filter_target. destruct (requested target_inv) as [t|].
  - destruct (Dict.get t invs) eqn:Hg; cbn [snd app].
    + split; [|reflexivity]. intros _ t' H. injection H as <-.
      apply get_In in Hg. apply (in_map fst) in Hg. exact Hg.
    + split; [discriminate|]. intro H. apply get_None_keys in Hg.
      now destruct (Hg (H t eq_refl)).
  - split; [discriminate|reflexivity].
Qed.

(** The check returns no error exactly for a project that follows the
    convention. *)
Lemma check_nil_iff (yaml : option (string -> string + pyval)) (p : project)
    (target_inv : option string) :
  check_project_structure yaml p target_inv = [] <-> conforms yaml p target_inv.
Proof.
  unfold conforms. destruct (data p) as [listing|] eqn:Hd.
  - rewrite (check_phases _ _ _ _ Hd). unfold root_errors.
    split.
    + intro H.
      apply app_eq_nil in H as [Hroot H]. apply app_eq_nil in H as [Ht H].
      apply app_eq_nil in H as [Hs Hc].
      apply app_eq_nil in Hroot as [Hr Hroot].
      apply app_eq_nil in Hroot as [Hsub Hscan].
      split; [destruct (readme p); [reflexivity|discriminate]|].
      exists listing. split; [reflexivity|]. split; [|split; [|split]].
      * intros item Hin.
        apply (proj1 (flat_map_nil _ _) Hsub) in Hin.
        unfold subfolder_step in Hin.
        destruct (isdir (snd item)); [discriminate|reflexivity].
      * intros file n Hin.
        apply (proj1 (flat_map_nil _ _) Hscan) in Hin.
        now apply scan_silent.
      * now apply target_silent.
      * intros inv fd Hin. apply (bundle_passes yaml _ _ _ _ Hin). split.
        -- exact (proj1 (flat_map_nil _ _) Hs (inv, fd) Hin).
        -- exact (proj1 (flat_map_nil _ _) Hc (inv, fd) Hin).
    + intros (Hr & listing' & Hl & Hsub & Hscan & Ht & Hb).
      injection Hl as <-. rewrite Hr. cbn [app].
      rewrite (proj2 (flat_map_nil _ _)).
      2:{ intros item Hin. unfold subfolder_step.
          now rewrite (Hsub item Hin). }
      rewrite (proj2 (flat_map_nil _ _)).
      2:{ intros [file n] Hin. apply scan_silent. now apply Hscan. }
      rewrite (proj2 (target_silent _ _) Ht).
      rewrite (proj2 (flat_map_nil _ _)).
      2:{ intros [inv fd] Hin.
          exact (proj1 (proj2 (bundle_passes yaml _ _ _ _ Hin) (Hb _ _ Hin))). }
      rewrite (proj2 (flat_map_nil _ _)); [reflexivity|].
      intros [inv fd] Hin.
      exact (proj2 (proj2 (bundle_passes yaml _ _ _ _ Hin) (Hb _ _ Hin))).
  - unfold check_project_structure. rewrite Hd. split.
    + intro H. now apply app_eq_nil in H as [_ H].
    + intros (_ & listing & H & _). discriminate.
Qed.

(** X1: [check] prints "All checks passed." and exits with status 0
    exactly when the project follows the convention (a README, a data
    folder without subfolders or unmatched files, the requested
    investigation present, and for each investigation checked one raw file,
    at most one source file, one tidy file whose header line reads and
    holds a tab, and one sidecar that parses); otherwise it exits with
    status 1 after one line per error. *)
Theorem check_passes_iff (yaml : option (string -> string + pyval))
    (p : project) (target_inv : option string) :
  (conforms yaml p target_inv
   <-> cmd_check yaml p target_inv = (["All checks passed."], 0))
  /\ (~ conforms yaml p target_inv
      <-> cmd_check yaml p target_inv
          = ("Validation errors found:"
               :: map (fun err => " - " ++ err)
                    (check_project_structure yaml p target_inv), 1)).
Proof.
  rewrite <- check_nil_iff. unfold cmd_check.
  destruct (check_project_structure yaml p target_inv) as [|e errors].
  - split; [split; reflexivity|].
    split; [intro H; now destruct H|discriminate].
  - split; [split; discriminate|].
    split; [reflexivity|intros _; discriminate].
Qed.

Lemma check_passes_witness :
  conforms example_yaml example_project None.
Proof.
  apply (proj1 (check_passes_iff example_yaml example_project None)).
  vm_compute. reflexivity.
Defined.

(** ** A check restricted to one investigation *)

(** X2: when the requested investigation is among those found, the check
    restricted to it reports nothing the check of the whole project does
    not report; so a project that passes as a whole passes for each of its
    investigations. *)
Theorem targeted_errors_in_full_check
    (yaml : option (string -> string + pyval)) (p : project)
    (listing : list (string * node)) (t : string) :
  data p = Some listing ->
  In t (Dict.keys (grouping listing)) ->
  (forall e, In e (check_project_structure yaml p (Some t)) ->
             In e (check_project_structure yaml p None))
  /\ (check_project_structure yaml p None = [] ->
      check_project_structure yaml p (Some t) = []).
Proof.
  intros Hd Hin.
  assert (Hsub : forall e, In e (check_project_structure yaml p (Some t)) ->
                           In e (check_project_structure yaml p None)).
  { intro e. rewrite !(check_phases _ _ _ _ Hd).
    assert (Hreq : requested (Some t) = Some t).
    { destruct (grouping_names _ _ Hin) as [_ Hne].
      destruct t; [congruence|reflexivity]. }
    unfold working_set, filter_target. rewrite Hreq.
    change (requested None) with (@None string).
    destruct (Dict.get t (grouping listing)) as [fd|] eqn:Hg.
    - cbn [fst snd app flat_map]. rewrite !app_nil_r.
      apply get_In in Hg. intro H.
      apply in_app_or in H as [H|H]; [apply in_or_app; now left|].
      apply in_or_app. right.
      apply in_app_or in H as [H|H]; apply in_or_app; [left|right];
        apply in_flat_map; now exists (t, fd).
    - apply get_None_keys in Hg. contradiction. }
  split; [exact Hsub|]. intro Hnil.
  destruct (check_project_structure yaml p (Some t)) as [|e l];
    [reflexivity|].
  specialize (Hsub e (or_introl eq_refl)). rewrite Hnil in Hsub.
  destruct Hsub.
Qed.

Lemma targeted_errors_witness :
  check_project_structure example_yaml example_project (Some "trial_1") = [].
Proof.
  apply (proj2 (targeted_errors_in_full_check example_yaml example_project
                  (match data example_project with
                   | Some l => l
                   | None => []
                   end) "trial_1" eq_refl
                  ltac:(vm_compute; left; reflexivity))).
  vm_compute. reflexivity.
Defined.

(** ** Rule set 6 *)

(** X3: for an investigation of the grouping the structural rules report
    nothing exactly when it has one raw, one tidy and one sidecar file and
    at most one source file, and they never report more than four errors:
    the rule on the name cannot fail. *)
Theorem structure_rules_exact (listing : list (string * node))
    (inv : string) (fd : files_dict) :
  Dict.get inv (grouping listing) = Some fd ->
  (structure_errors inv fd = [] <->
   length (raw_files fd) = 1 /\ length (tidy_files fd) = 1
   /\ length (sidecar_files fd) = 1 /\ length (source_files fd) <= 1)
  /\ length (structure_errors inv fd) <= 4
  /\ ~ In (invalid_name_msg inv) (structure_errors inv fd).
Proof.
  intro Hg.
  assert (Hname : Re.fullmatch name_pattern inv = Some []).
  { apply get_In in Hg. apply (in_map fst) in Hg. cbn [fst] in Hg.
    destruct (grouping_names _ _ Hg) as [Hw Hne].
    now apply fullmatch_word. }
  split; [|split].
  - rewrite structure_errors_nil, Hname. split; [tauto|].
    intro H. split; [discriminate|exact H].
  - unfold structure_errors. rewrite Hname. cbn [app].
    destruct (length (raw_files fd) =? 1)%nat,
             (length (tidy_files fd) =? 1)%nat,
             (length (sidecar_files fd) =? 1)%nat,
             (1 <? length (source_files fd))%nat; cbn; lia.
  - unfold structure_errors. rewrite Hname. cbn [app]. intro H.
    repeat (apply in_app_or in H as [H|H]);
      match type of H with
      | In _ (if ?x then _ else _) => destruct x
      end; (destruct H as [H|[]] || destruct H); discriminate.
Qed.

Lemma structure_rules_witness :
  length (structure_errors "a"
            {| source_files := []; raw_files := [];
               tidy_files := ["a.tsv"; "a.tsv" ++ nl];
               sidecar_files := [] |}) <= 4.
Proof.
  apply (structure_rules_exact
           [("a.tsv", File ""); ("a.tsv" ++ nl, File "")] "a").
  reflexivity.
Defined.

(** ** What the check reports, and what it never reports *)

Lemma content_errors_head (yaml : option (string -> string + pyval))
    (listing : list (string * node)) (fd : files_dict) (e : string) :
  In e (content_errors yaml listing fd) ->
  head e = Some "T"%char \/ head e = Some "E"%char
  \/ head e = Some "S"%char \/ head e = Some "P"%char.
Proof.
  intro H. apply in_app_or in H as [H|H].
  - unfold tidy_errors in H.
    destruct (tidy_files fd) as [|f l]; [destruct H|].
    destruct (open_ listing f) as [err|content].
    + destruct H as [<-|[]]. right. now left.
    + destruct (readline content) as [line|].
      * destruct (has_tab line); [destruct H|]. destruct H as [<-|[]].
        now left.
      * destruct H as [<-|[]]. now left.
  - apply sidecar_errors_head in H. tauto.
Qed.

(** The structural errors of an investigation of the grouping are count
    messages. *)
Lemma structure_rules_parts (listing : list (string * node)) (inv : string)
    (fd : files_dict) :
  Dict.get inv (grouping listing) = Some fd ->
  forall e, In e (structure_errors inv fd) ->
  exists n, e = raw_count_msg inv n \/ e = tidy_count_msg inv n
            \/ e = sidecar_count_msg inv n \/ e = source_count_msg inv n.
Proof.
  intros Hg e H.
  assert (Hname : Re.fullmatch name_pattern inv = Some []).
  { apply get_In in Hg. apply (in_map fst) in Hg. cbn [fst] in Hg.
    destruct (grouping_names _ _ Hg) as [Hw Hne].
    now apply fullmatch_word. }
  unfold structure_errors in H. rewrite Hname in H. cbn [app] in H.
  apply in_app_or in H as [H|H]; [|apply in_app_or in H as [H|H];
                                    [|apply in_app_or in H as [H|H]]];
    match type of H with
    | In _ (if ?x then _ else _) => destruct x
    end; try destruct H as [<-|[]]; try destruct H; eexists; eauto.
Qed.

(** X4: the error about invalid characters in an investigation name is
    never reported: no error of a check starts with "Investigation name",
    whatever the project and the requested investigation, because the
    names checked were captured by the patterns. *)
Theorem invalid_name_never_reported
    (yaml : option (string -> string + pyval)) (p : project)
    (target_inv : option string) :
  (forall e, In e (check_project_structure yaml p target_inv) ->
             String.prefix "Investigation name" e = false)
  /\ forall inv,
       ~ In (invalid_name_msg inv) (check_project_structure yaml p target_inv).
Proof.
  assert (G : forall e, In e (check_project_structure yaml p target_inv) ->
                        String.prefix "Investigation name" e = false).
  { intros e H. destruct (data p) as [listing|] eqn:Hd.
    - rewrite (check_phases _ _ _ _ Hd) in H.
      apply in_app_or in H as [H|H]; [|apply in_app_or in H as [H|H];
                                        [|apply in_app_or in H as [H|H]]].
      + apply root_errors_head in H as (c & r & -> & Hc & _).
        cbn [String.prefix]. destruct (ascii_dec "I" c); congruence.
      + unfold filter_target in H.
        destruct (requested target_inv) as [t|]; [|destruct H].
        destruct (Dict.get t (grouping listing)); [destruct H|].
        destruct H as [<-|[]]. reflexivity.
      + apply in_flat_map in H as ([inv fd] & Hin & H). cbn [fst snd] in H.
        apply working_set_get in Hin.
        destruct (structure_rules_parts listing inv fd Hin e H)
          as [n [-> | [-> | [-> | ->]]]]; reflexivity.
      + apply in_flat_map in H as ([inv fd] & _ & H).
        apply content_errors_head in H.
        destruct e as [|c r]; [reflexivity|]. cbn [String.prefix].
        destruct (ascii_dec "I" c) as [<-|]; [|reflexivity].
        cbn in H. destruct H as [H|[H|[H|H]]]; discriminate.
    - unfold check_project_structure in H. rewrite Hd in H.
      apply in_app_or in H as [H|[<-|[]]]; [|reflexivity].
      destruct (readme p); [destruct H|]. destruct H as [<-|[]]. reflexivity. }
  split; [exact G|]. intros inv H. apply G in H. discriminate.
Qed.

Lemma invalid_name_witness :
  ~ In (invalid_name_msg "trial 1")
      (check_project_structure example_yaml example_project (Some "trial 1")).
Proof.
  exact (proj2 (invalid_name_never_reported example_yaml example_project
                  (Some "trial 1")) "trial 1").
Defined.

Lemma unmatched_msg_inj (f f' : string) :
  unmatched_msg f = unmatched_msg f' -> f = f'.
Proof.
  unfold unmatched_msg. intro H.
  apply append_inv_head in H. now apply append_inv_tail in H.
Qed.

Lemma subfolder_msg_inj (f f' : string) :
  subfolder_msg f = subfolder_msg f' -> f = f'.
Proof. unfold subfolder_msg. apply append_inv_head. Qed.

(** X5: with a data folder, a name is reported as matching no pattern
    exactly when it is a regular file of the folder, is not one of the two
    ignored names and matches none of the four patterns; and a name is
    reported as a subfolder exactly when it is a directory of the folder.
    Neither report depends on the requested investigation. *)
Theorem root_reports_exact (yaml : option (string -> string + pyval))
    (p : project) (listing : list (string * node))
    (target_inv : option string) (name : string) :
  data p = Some listing ->
  (In (unmatched_msg name) (check_project_structure yaml p target_inv)
   <-> exists n, In (name, n) listing /\ isfile n = true
                 /\ classify name = Unmatched)
  /\ (In (subfolder_msg name) (check_project_structure yaml p target_inv)
      <-> In (name, Dir) listing).
Proof.
  intro Hd. rewrite (check_phases _ _ _ _ Hd).
  (* the later phases report neither *)
  assert (Hlater : forall e,
             (head e = Some "F"%char \/ head e = Some "d"%char) ->
             ~ In e (snd (filter_target target_inv (grouping listing, []))
                     ++ flat_map
                          (fun kv => structure_errors (fst kv) (snd kv))
                          (working_set target_inv listing)
                     ++ flat_map
                          (fun kv => content_errors yaml listing (snd kv))
                          (working_set target_inv listing))).
  { intros e He H.
    apply in_app_or in H as [H|H]; [|apply in_app_or in H as [H|H]].
    - apply target_errors_head in H. destruct He; congruence.
    - apply in_flat_map in H as (kv & _ & H).
      apply structure_errors_head in H. destruct He; congruence.
    - apply in_flat_map in H as (kv & _ & H).
      apply content_errors_head in H.
      destruct He, H as [H|[H|[H|H]]]; congruence. }
  unfold root_errors. split; split.
  - intro H. apply in_app_or in H as [H|H];
      [|now destruct (Hlater (unmatched_msg name) (or_introl eq_refl))].
    apply in_app_or in H as [H|H];
      [destruct (readme p); [destruct H|destruct H as [H|[]]; discriminate]|].
    apply in_app_or in H as [H|H].
    + apply in_flat_map in H as (item & _ & H). unfold subfolder_step in H.
      destruct (isdir (snd item)); [|destruct H].
      destruct H as [H|[]]. discriminate.
    + apply in_flat_map in H as ([file n] & Hin & H).
      unfold scan_step in H.
      destruct (always_ignored file) eqn:Hi; [destruct H|].
      destruct (isfile n) eqn:Hn; cbn [negb snd] in H; [|destruct H].
      destruct (first_match file patterns) as [[ft inv]|] eqn:Hm;
        cbn [snd app] in H; [destruct H|].
      destruct H as [H|[]]. apply unmatched_msg_inj in H. subst file.
      exists n. repeat split; trivial. unfold classify. now rewrite Hi, Hm.
  - intros (n & Hin & Hn & Hc). apply in_or_app. left.
    apply in_or_app. right. apply in_or_app. right.
    apply in_flat_map. exists (name, n). split; [exact Hin|].
    unfold scan_step. unfold classify in Hc.
    destruct (always_ignored name); [discriminate|].
    rewrite Hn. cbn [negb].
    destruct (first_match name patterns) as [[ft inv]|]; [discriminate|].
    now left.
  - intro H. apply in_app_or in H as [H|H];
      [|now destruct (Hlater (subfolder_msg name) (or_intror eq_refl))].
    apply in_app_or in H as [H|H];
      [destruct (readme p); [destruct H|destruct H as [H|[]]; discriminate]|].
    apply in_app_or in H as [H|H].
    + apply in_flat_map in H as ([item n] & Hin & H).
      unfold subfolder_step in H. cbn [fst snd] in H.
      destruct n; cbn [isdir] in H; [|destruct H..].
      destruct H as [H|[]]. apply subfolder_msg_inj in H. now subst item.
    + apply in_flat_map in H as ([file n] & _ & H). unfold scan_step in H.
      destruct (always_ignored file); [destruct H|].
      destruct (isfile n); cbn [negb snd] in H; [|destruct H].
      destruct (first_match file patterns) as [[ft inv]|];
        cbn [snd app] in H; [destruct H|].
      destruct H as [H|[]]. discriminate.
  - intro Hin. apply in_or_app. left. apply in_or_app. right.
    apply in_or_app. left. apply in_flat_map. exists (name, Dir).
    split; [exact Hin|]. now left.
Qed.

Lemma root_reports_witness :
  In (unmatched_msg "notes.txt")
    (check_project_structure None
       {| project_path := "/p"; readme := true;
          data := Some [("notes.txt", File ""); (".DS_Store", File "")] |}
       (Some "a"))
  <-> exists n, In ("notes.txt", n) [("notes.txt", File ""); (".DS_Store", File "")]
                /\ isfile n = true /\ classify "notes.txt" = Unmatched.
Proof.
  exact (proj1 (root_reports_exact None
                  {| project_path := "/p"; readme := true;
                     data := Some [("notes.txt", File "");
                                   (".DS_Store", File "")] |}
                  [("notes.txt", File ""); (".DS_Store", File "")]
                  (Some "a") "notes.txt" eq_refl)).
Defined.

(** ** The header rule *)






(** X7: a tidy file whose first 8192 bytes do not decode as UTF-8 is
    reported as "not encoded in UTF-8", and only as that, whatever its
    first line is. *)
Theorem undecodable_chunk_reported (listing : list (string * node))
    (fd : files_dict) (tidy_file : string) (others : list string)
    (content : string) :
  tidy_files fd = tidy_file :: others ->
  Dict.get tidy_file listing = Some (File content) ->
  run Start (take _CHUNK_SIZE content) = None ->
  tidy_errors listing fd = [not_utf8_msg tidy_file].
Proof.
  intros Ht Hopen Hrun. unfold tidy_errors, open_. rewrite Ht, Hopen.
  destruct content as [|b content]; [discriminate|].
  unfold readline, chunks. cbn [String.length chunks_fuel readline_loop].
  pose proof (decode_spec (take _CHUNK_SIZE (String b content)) Start ""
                I eq_refl) as Hd.
  destruct (decode Start "" (take _CHUNK_SIZE (String b content)))
    as [[[text st1] pending']|]; [|reflexivity].
  destruct Hd as (Hr & _). congruence.
Qed.

Lemma undecodable_chunk_witness :
  tidy_errors [("a.tsv", File ("id" ++ String tab (String (ascii_of_nat 192) "")))]
    {| source_files := []; raw_files := [];
       tidy_files := ["a.tsv"]; sidecar_files := [] |}
  = [not_utf8_msg "a.tsv"].
Proof.
  apply (undecodable_chunk_reported
           [("a.tsv", File ("id" ++ String tab (String (ascii_of_nat 192) "")))]
           {| source_files := []; raw_files := [];
              tidy_files := ["a.tsv"]; sidecar_files := [] |}
           "a.tsv" []
           ("id" ++ String tab (String (ascii_of_nat 192) "")));
    [reflexivity|reflexivity|vm_compute; reflexivity].
Defined.

(** ** When a package run goes through *)

Section PackageOutcomes.

Variable yaml : option (string -> string + pyval).
Variable md5 : hashlib_md5.

Lemma package_ok_iff (target_inv : option string) (w : world) :
  (exists w', package_investigations yaml md5 target_inv w = (Ok tt, w'))
  <-> packageable yaml target_inv w.
Proof.
  unfold packageable. split.
  - intros [w' H].
    destruct (package_ok_inv _ _ _ _ _ H)
      as (listing & sel & resources & msgs & Hd & Hs & Hr & Hw & _).
    exists listing, sel. repeat split; trivial.
    + intros e Hg. destruct (collect_ok _ _ _ Hr) as [HF _].
      destruct (Forall2_map_In _ _ sel resources (inv, file) HF H0)
        as (r & _ & Hround).
      destruct (round_ok _ _ _ _ _ _ _ _ Hround)
        as (info & fields & m & m' & Hi & _).
      rewrite outcome_tidy_info, Hg in Hi. discriminate.
    + destruct (collect_ok _ _ _ Hr) as [HF _].
      destruct (Forall2_map_In _ _ sel resources (inv, file) HF H0)
        as (r & _ & Hround).
      destruct (round_ok _ _ _ _ _ _ _ _ Hround)
        as (info & fields & m & m' & _ & Hl & _).
      rewrite outcome_load_yaml_fields in Hl.
      destruct (try_load yaml listing file) as [e|v]; [discriminate|].
      destruct v; try discriminate. now exists items.
  - intros (listing & sel & Hd & Hs & Hitems & Hw).
    rewrite (package_run _ _ _ _ _ Hd), Hs. unfold rounds.
    set (round := fun item =>
           outcome (package_one yaml md5 (data_path_of w) listing
                      (created_of w) item)).
    destruct (collect_all_ok (map round sel)) as [resources Hc].
    { intros o Ho. apply in_map_iff in Ho as ([inv file] & <- & Hin).
      destruct (Hitems inv file Hin) as [Hread [items Hl]].
      unfold round. rewrite outcome_package_one, outcome_tidy_info.
      rewrite outcome_load_yaml_fields, Hl.
      destruct (Dict.get (inv ++ ".tsv") listing) as [[| |e|]|] eqn:Hg;
        try (eexists; reflexivity).
      now destruct (Hread e). }
    rewrite Hc, Hw. eauto.
Qed.

(** X8: [package] exits with status 0 exactly when the data folder
    exists, the requested investigation (if any) has a sidecar, every
    selected sidecar opens and parses to a mapping, no selected tidy file
    is an unreadable regular file, and datapackage.json can be written;
    otherwise it exits with status 1. *)
Theorem package_succeeds_iff (target_inv : option string) (w : world) :
  (fst (cmd_package yaml md5 target_inv w) = 0
   <-> packageable yaml target_inv w)
  /\ (fst (cmd_package yaml md5 target_inv w) = 1
      <-> ~ packageable yaml target_inv w).
Proof.
  rewrite <- package_ok_iff. unfold cmd_package.
  destruct (package_investigations yaml md5 target_inv w) as [[[]|msg] w'].
  - split; split; trivial; try discriminate; [intros _; eauto|].
    intro H. destruct H. eauto.
  - split; split; trivial; try discriminate.
    + intros [w'' H]. discriminate.
    + intros _ [w'' H]. discriminate.
Qed.


End PackageOutcomes.

Lemma package_succeeds_witness :
  packageable example_yaml None example_world.
Proof.
  apply (proj1 (package_succeeds_iff example_yaml example_md5 None
                  example_world)).
  reflexivity.
Defined.


(** ** The resources of a run *)

Lemma discovered_NoDup (listing : list (string * node)) :
  NoDup (Dict.keys (discovered listing)).
Proof.
  unfold discovered.
  assert (G : forall l invs, NoDup (Dict.keys invs) ->
                             NoDup (Dict.keys (fold_left discover_step l invs))).
  { induction l as [|item l IH]; intros invs H; [exact H|].
    cbn [fold_left]. apply IH. unfold discover_step.
    destruct (Path.endswith (fst item) ".yml"); [|exact H].
    now apply NoDup_keys_set. }
  apply G. constructor.
Qed.

Lemma selected_NoDup (target_inv : option string)
    (listing : list (string * node)) (sel : Dict.t string) :
  selected target_inv listing = Some sel -> NoDup (Dict.keys sel).
Proof.
  unfold selected. destruct (requested target_inv) as [t|].
  - destruct (Dict.get t (discovered listing)); [|discriminate].
    intro H. injection H as <-. repeat constructor. intros [].
  - intro H. injection H as <-. apply discovered_NoDup.
Qed.

Lemma Forall2_map_eq {A B C D : Type} (R : B -> C -> Prop) (f : A -> B)
    (g : C -> D) (h : A -> D) (l : list A) (cs : list C) :
  Forall2 R (map f l) cs -> (forall a c, R (f a) c -> g c = h a) ->
  map g cs = map h l.
Proof.
  revert cs; induction l as [|a l IH]; intros cs HF Hgh;
    inversion HF as [|? c ? cs' Hx Hrest]; subst; [reflexivity|].
  cbn [map]. now rewrite (Hgh a c Hx), (IH cs' Hrest Hgh).
Qed.

Lemma NoDup_map_injective {A B : Type} (f : A -> B) (l : list A) :
  (forall a b, f a = f b -> a = b) -> NoDup l -> NoDup (map f l).
Proof.
  intros Hf H. induction H as [|a l Ha Hl IH]; cbn [map]; constructor;
    [|exact IH].
  intro Hin. apply in_map_iff in Hin as (b & E & Hb).
  apply Hf in E. now subst b.
Qed.

Section Resources.

Variable yaml : option (string -> string + pyval).
Variable md5 : hashlib_md5.

(** X10: the document of a run that completes holds one descriptor per
    selected investigation, in the order the sidecars were found in the
    folder listing; their names are those investigations, no two alike, and
    the count printed is their number. *)
Theorem resources_follow_selection (target_inv : option string)
    (w w' : world) (listing : list (string * node)) (sel : Dict.t string) :
  package_investigations yaml md5 target_inv w = (Ok tt, w') ->
  data (cwd w) = Some listing ->
  selected target_inv listing = Some sel ->
  exists resources,
    datapackage_json w' = Some (document w resources)
    /\ map (field "name") resources
       = map (fun item => Some (PStr (fst item))) sel
    /\ NoDup (map (field "name") resources)
    /\ stdout w' = (stdout w ++ [report_msg (length sel)])%list.
Proof.
  intros H Hd Hs.
  destruct (package_ok_inv _ _ _ _ _ H)
    as (listing' & sel' & resources & msgs & Hd' & Hs' & Hr & Hw & ->).
  rewrite Hd in Hd'. injection Hd' as <-.
  rewrite Hs in Hs'. injection Hs' as <-.
  destruct (collect_ok _ _ _ Hr) as [HF _].
  assert (Hnames : map (field "name") resources
                   = map (fun item => Some (PStr (fst item))) sel).
  { apply (Forall2_map_eq _ _ _ _ _ _ HF).
    intros [inv file] r Hround.
    destruct (round_ok _ _ _ _ _ _ _ _ Hround)
      as (info & fields & m & m' & _ & _ & -> & _).
    reflexivity. }
  exists resources. split; [reflexivity|]. split; [exact Hnames|]. split.
  - rewrite Hnames.
    rewrite <- (map_map fst (fun k => Some (PStr k))).
    apply NoDup_map_injective; [|exact (selected_NoDup _ _ _ Hs)].
    intros a b E. now injection E.
  - cbn [written stdout].
    rewrite <- (length_map (field "name") resources), Hnames.
    now rewrite length_map.
Qed.

End Resources.

Lemma resources_follow_witness :
  exists resources,
    datapackage_json example_after = Some (document example_world resources)
    /\ map (field "name") resources = [Some (PStr "my-data")]
    /\ NoDup (map (field "name") resources)
    /\ stdout example_after = [report_msg 1].
Proof.
  exact (resources_follow_selection example_yaml example_md5 None
           example_world example_after example_listing
           [("my-data", "my-data.yml")] example_run eq_refl eq_refl).
Defined.

(** ** What package mode finds *)

(** X11: the investigations package mode finds are exactly the stems
    [os.path.splitext] gives the entries whose name ends in [.yml]; the
    sidecar kept for an investigation is such an entry with that stem, and
    when several entries share a stem it is the last of them in the folder
    listing. *)
Theorem discovery_exact (listing : list (string * node)) :
  (forall k,
      In k (Dict.keys (discovered listing)) <->
      exists file n, In (file, n) listing
                     /\ Path.endswith file ".yml" = true
                     /\ fst (Path.splitext file) = k)
  /\ (forall k file,
        Dict.get k (discovered listing) = Some file ->
        Path.endswith file ".yml" = true /\ fst (Path.splitext file) = k
        /\ exists n, In (file, n) listing)
  /\ (forall before file n after,
        listing = (before ++ (file, n) :: after)%list ->
        Path.endswith file ".yml" = true ->
        (forall file' n', In (file', n') after ->
           Path.endswith file' ".yml" = true ->
           fst (Path.splitext file') <> fst (Path.splitext file)) ->
        Dict.get (fst (Path.splitext file)) (discovered listing) = Some file).
Proof.
  assert (Hget : forall k file,
             Dict.get k (discovered listing) = Some file ->
             Path.endswith file ".yml" = true /\ fst (Path.splitext file) = k
             /\ exists n, In (file, n) listing).
  { unfold discovered.
    assert (G : forall l invs,
               (forall item, In item l -> In item listing) ->
               (forall k file, Dict.get k invs = Some file ->
                  Path.endswith file ".yml" = true
                  /\ fst (Path.splitext file) = k
                  /\ exists n, In (file, n) listing) ->
               forall k file,
                 Dict.get k (fold_left discover_step l invs) = Some file ->
                 Path.endswith file ".yml" = true
                 /\ fst (Path.splitext file) = k
                 /\ exists n, In (file, n) listing).
    { induction l as [|[f n] l IH]; intros invs Hsub Hinv; [exact Hinv|].
      cbn [fold_left]. apply IH; [intros; apply Hsub; now right|].
      intros k file. unfold discover_step. cbn [fst].
      destruct (Path.endswith f ".yml") eqn:Hy; [|apply Hinv].
      rewrite get_set.
      destruct (String.eqb_spec (fst (Path.splitext f)) k) as [<-|];
        [|apply Hinv].
      intro H. injection H as <-. repeat split; trivial.
      exists n. apply Hsub. now left. }
    apply G; [trivial|]. intros k file H. discriminate. }
  split; [|split; [exact Hget|]].
  - intro k. split.
    + intro H. apply keys_In in H as [file H].
      apply (In_get _ _ _ (discovered_NoDup listing)) in H.
      destruct (Hget _ _ H) as (Hy & Hk & n & Hin). now exists file, n.
    + intros (file & n & Hin & Hy & <-). now apply (discovered_keys _ _ n).
  - intros before file n after -> Hy Hafter. clear Hget. unfold discovered.
    rewrite fold_left_app. cbn [fold_left].
    set (invs := discover_step (fold_left discover_step before []) (file, n)).
    assert (H0 : Dict.get (fst (Path.splitext file)) invs = Some file).
    { unfold invs, discover_step. cbn [fst]. rewrite Hy, get_set.
      now rewrite String.eqb_refl. }
    clearbody invs. revert invs H0.
    induction after as [|[f' n'] after IH]; intros invs H0; [exact H0|].
    cbn [fold_left].
    apply IH; [intros f1 n1 Hin1; apply (Hafter f1 n1); now right|].
    unfold discover_step. cbn [fst].
    destruct (Path.endswith f' ".yml") eqn:Hy'; [|exact H0].
    rewrite get_set.
    destruct (String.eqb_spec (fst (Path.splitext f'))
                (fst (Path.splitext file))) as [E|]; [|exact H0].
    now destruct (Hafter f' n' (or_introl eq_refl) Hy').
Qed.

Lemma discovery_witness :
  Dict.get ".yml" (discovered [(".yml", File ""); ("a.tsv", File "");
                               (".yml.yml", File "")])
  = Some ".yml.yml".
Proof.
  destruct (discovery_exact [(".yml", File ""); ("a.tsv", File "");
                             (".yml.yml", File "")]) as (_ & _ & H).
  apply (H [(".yml", File ""); ("a.tsv", File "")] ".yml.yml" (File "") []);
    [reflexivity|reflexivity|intros f n []].
Defined.

(** ** Size and digest *)

Lemma fold_chunks (md5 : hashlib_md5) (size : nat) :
  0 < size ->
  (forall h a b,
      md5_update md5 (md5_update md5 h a) b = md5_update md5 h (a ++ b)) ->
  (forall h, md5_update md5 h "" = h) ->
  forall fuel s h,
    String.length s <= fuel ->
    fold_left (md5_update md5) (chunks_fuel fuel size s) h
    = md5_update md5 h s.
Proof.
  intros Hsize Happ Hnil.
  induction fuel as [|fuel IH]; intros [|c t] h Hlen; cbn [String.length] in Hlen;
    try (cbn [chunks_fuel fold_left]; now rewrite Hnil); [lia|].
  cbn [chunks_fuel fold_left]. rewrite IH.
  - now rewrite Happ, take_drop.
  - rewrite length_drop. cbn [String.length]. lia.
Qed.

(** X12: for a hash whose [update] may be fed a text in pieces (feeding
    [a] then [b] is feeding [a ++ b], and feeding nothing changes nothing),
    as MD5 is, reading the tidy file in chunks of 8192 bytes gives the
    digest of its whole content, and the size reported is the length of
    that content; neither prints a warning. *)
Theorem chunked_digest_is_whole (md5 : hashlib_md5)
    (listing : list (string * node)) (tsv_path file content : string)
    (w : world) :
  (forall h a b,
      md5_update md5 (md5_update md5 h a) b = md5_update md5 h (a ++ b)) ->
  (forall h, md5_update md5 h "" = h) ->
  Dict.get file listing = Some (File content) ->
  compute_file_info md5 listing tsv_path file w
  = (Ok (String.length content,
         md5_hexdigest md5 (md5_update md5 (md5_new md5) content)), w).
Proof.
  intros Happ Hnil Hget. unfold compute_file_info, open_. rewrite Hget.
  unfold ret, chunks.
  rewrite (fold_chunks md5 8192) by
    (trivial; (apply Nat.ltb_lt; reflexivity) || apply Nat.le_refl).
  reflexivity.
Qed.

Lemma chunked_digest_witness :
  compute_file_info example_stream [("a.tsv", File long_tidy)]
    "/p/data/a.tsv" "a.tsv" blank
  = (Ok (String.length long_tidy, long_tidy), blank).
Proof.
  apply (chunked_digest_is_whole example_stream [("a.tsv", File long_tidy)]
           "/p/data/a.tsv" "a.tsv" long_tidy blank).
  - intros h a b. cbn. apply append_assoc.
  - intro h. cbn. apply append_nil_r.
  - reflexivity.
Defined.

(** ** The name of the package *)




(** ** The grouping is exact *)

Lemma matched_not_ignored (file : string) (ft : ftype) (inv : string) :
  first_match file patterns = Some (ft, inv) -> always_ignored file = false.
Proof.
  intro H. apply first_match_has_role in H as (Hw & Hne & Hr).
  destruct (has_role_prefix _ _ _ Hr) as [rest ->].
  now apply word_head_not_ignored.
Qed.

Lemma add_file_keeps (inv inv0 : string) (ft ft0 : ftype) (file file0 : string)
    (invs : Dict.t files_dict) (fd : files_dict) :
  Dict.get inv invs = Some fd -> In file (files_of ft fd) ->
  exists fd', Dict.get inv (add_file inv0 ft0 file0 invs) = Some fd'
              /\ In file (files_of ft fd').
Proof.
  intros Hg Hin. unfold add_file. rewrite get_set.
  destruct (String.eqb_spec inv0 inv) as [->|]; [|now exists fd].
  rewrite Hg. eexists. split; [reflexivity|].
  rewrite files_of_append.
  destruct ft0, ft; try exact Hin; apply in_or_app; now left.
Qed.

Lemma add_file_adds (inv : string) (ft : ftype) (file : string)
    (invs : Dict.t files_dict) :
  exists fd', Dict.get inv (add_file inv ft file invs) = Some fd'
              /\ In file (files_of ft fd').
Proof.
  unfold add_file. rewrite get_set, String.eqb_refl.
  eexists. split; [reflexivity|]. rewrite files_of_append.
  destruct ft; apply in_or_app; right; now left.
Qed.

(** X14: the grouping is exact: a name is listed under a role in the
    bundle of an investigation exactly when it is a regular file of the
    data folder that the classifier gives that role and that
    investigation.  Directories, the two ignored names and unmatched names
    enter no bundle, and no file is lost. *)
Theorem grouping_exact (listing : list (string * node)) (inv : string)
    (ft : ftype) (file : string) :
  (exists fd, Dict.get inv (grouping listing) = Some fd
              /\ In file (files_of ft fd))
  <-> (exists n, In (file, n) listing /\ isfile n = true
                 /\ classify file = Matched ft inv).
Proof.
  split.
  - intros (fd & Hg & Hin).
    destruct (grouping_sound listing inv fd ft file Hg Hin)
      as (Hm & n & Hl & Hn).
    exists n. repeat split; trivial. unfold classify.
    now rewrite (matched_not_ignored _ _ _ Hm), Hm.
  - intros (n & Hl & Hn & Hc). unfold classify in Hc.
    destruct (always_ignored file) eqn:Hi; [discriminate|].
    destruct (first_match file patterns) as [[ft' inv']|] eqn:Hm;
      [|discriminate].
    injection Hc as -> ->. unfold grouping.
    assert (G : forall l invs,
               (exists fd, Dict.get inv invs = Some fd
                           /\ In file (files_of ft fd))
               \/ In (file, n) l ->
               exists fd,
                 Dict.get inv (fst (fold_left scan_step l (invs, [])))
                 = Some fd /\ In file (files_of ft fd)).
    { induction l as [|[f m] l IH]; intros invs [H|H];
        [exact H|destruct H| |];
        cbn [fold_left]; rewrite (scan_step_split invs []), scan_fold_fst;
        apply IH.
      - left. destruct H as (fd & Hg & Hin). unfold scan_step.
        destruct (always_ignored f); [now exists fd|].
        destruct (isfile m); cbn [negb]; [|now exists fd].
        destruct (first_match f patterns) as [[ft0 inv0]|]; cbn [fst];
          [|now exists fd].
        now apply add_file_keeps with fd.
      - destruct H as [H|H]; [|now right]. injection H as -> ->.
        left. unfold scan_step. rewrite Hi, Hn, Hm. cbn [negb fst].
        apply add_file_adds. }
    apply G. now right.
Qed.

Lemma grouping_exact_witness :
  exists fd,
    Dict.get "trial_1"
      (grouping [(".gitignore", File ""); ("trial_1-raw.csv", File "a,b");
                 ("sub", Dir); ("trial_1.tsv", File "")]) = Some fd
    /\ In "trial_1-raw.csv" (files_of raw fd).
Proof.
  apply (proj2 (grouping_exact
                  [(".gitignore", File ""); ("trial_1-raw.csv", File "a,b");
                   ("sub", Dir); ("trial_1.tsv", File "")]
                  "trial_1" raw "trial_1-raw.csv")).
  exists (File "a,b"). split; [right; now left|]. split; reflexivity.
Defined.

(** ** Every key of a sidecar is accounted for *)

(** X15: when the sidecar parses to a mapping the loader returns, and
    every top-level key gives either one field record or one warning: the
    records and the warnings printed together are as many as the keys. *)
Theorem every_key_accounted_for (yaml : option (string -> string + pyval))
    (listing : list (string * node)) (yml_file file : string)
    (items : list (string * pyval)) (w : world) :
  try_load yaml listing file = inr (PDict items) ->
  exists fields warnings,
    load_yaml_fields yaml listing yml_file file w = (Ok fields, log w warnings)
    /\ length fields + length warnings = length items.
Proof.
  intro H. rewrite load_yaml_fields_run, H.
  exists (fields_of items), (field_warnings items). split; [reflexivity|].
  unfold fields_of, field_warnings. clear H.
  induction items as [|[k v] items IH]; [reflexivity|].
  cbn [flat_map fst snd]. rewrite !length_app.
  destruct v; cbn [length]; lia.
Qed.

Lemma every_key_witness :
  exists fields warnings,
    load_yaml_fields
      (Some (fun _ => inr (PDict [("col_a", PDict []); ("note", PNone)])))
      [("inv.yml", File "")] "/p/data/inv.yml" "inv.yml" blank
    = (Ok fields, log blank warnings)
    /\ length fields + length warnings = 2.
Proof.
  apply (every_key_accounted_for
           (Some (fun _ => inr (PDict [("col_a", PDict []); ("note", PNone)])))
           [("inv.yml", File "")] "/p/data/inv.yml" "inv.yml"
           [("col_a", PDict []); ("note", PNone)] blank).
  reflexivity.
Defined.
